(** * kafka-go: the Fetch and MultiFetch operations and the v2 wire types

A shallow embedding of [fetch.go] (package [kafka]).  Go integers are
modelled as [Z] with the conversions [int8], [int16], [int32] written
as explicit two's-complement reductions; a [*writeBuffer] is the
sequence of bytes written so far; a Go map is a [gmap]; the broker
round trip is a step on an explicit trace of calls. *)

From Stdlib Require Import ZArith List String Ascii Lia.
From stdpp Require Import base option list gmap strings fin_maps.

Local Open Scope Z_scope.

(** ** Fixed-width integers *)

Module GoInt.

(** Conversion of an integer to a signed [bits]-wide integer, as Go's
    [intN(x)] does it: keep the low [bits] bits, read as two's complement. *)
Definition wrap (bits : Z) (z : Z) : Z :=
  (z + 2 ^ (bits - 1)) mod 2 ^ bits - 2 ^ (bits - 1).

Definition int8 (z : Z) : Z := wrap 8 z.
Definition int16 (z : Z) : Z := wrap 16 z.
Definition int32 (z : Z) : Z := wrap 32 z.

Definition MaxInt32 : Z := 2147483647.
Definition MinInt32 : Z := -2147483648.
(** [math.MaxInt64] *)
Definition MaxInt64 : Z := 9223372036854775807.

End GoInt.
Export GoInt.

(** ** The write buffer and the size helpers *)

Module Wire.

(** A byte is an integer in [0, 256). *)
Definition byte : Type := Z.

(** The bytes a [*writeBuffer] has passed to its writer so far. *)
Definition writeBuffer : Type := list byte.

(** Modelled from the spec: the fixed-width big-endian encoding of the
    write buffer's primitives ([writeInt16], [writeInt32], [writeInt64]
    are declared outside [fetch.go]); [width] bytes, most significant
    first. *)
Definition bigEndian (width : nat) (v : Z) : list byte :=
  map (fun k : nat => Z.land (Z.shiftr v (8 * Z.of_nat k)) 255) (rev (seq 0 width)).

(** Modelled from the spec: [writeInt16], two bytes. *)
Definition writeInt16 (i : Z) (wb : writeBuffer) : writeBuffer := wb ++ bigEndian 2 i.

(** Modelled from the spec: [writeInt32], four bytes. *)
Definition writeInt32 (i : Z) (wb : writeBuffer) : writeBuffer := wb ++ bigEndian 4 i.

(** Modelled from the spec: [writeInt64], eight bytes. *)
Definition writeInt64 (i : Z) (wb : writeBuffer) : writeBuffer := wb ++ bigEndian 8 i.

(** The bytes of a Go string. *)
Definition stringBytes (s : string) : list byte :=
  map (fun c => Z.of_N (N_of_ascii c)) (list_ascii_of_string s).

(** [len(s)] *)
Definition len_string (s : string) : Z := Z.of_nat (String.length s).

(** Modelled from the spec: [writeString], a 2-byte length prefix followed
    by the bytes of the string. *)
Definition writeString (s : string) (wb : writeBuffer) : writeBuffer :=
  writeInt16 (int16 (len_string s)) wb ++ stringBytes s.

(** Modelled from the spec: [writeArray(n, f)], a 4-byte element count
    followed by the elements [f(0)], ..., [f(n-1)] in order. *)
Definition writeArray (n : nat) (f : nat -> writeBuffer -> writeBuffer)
    (wb : writeBuffer) : writeBuffer :=
  foldl (fun b i => f i b) (writeInt32 (int32 (Z.of_nat n)) wb) (seq 0 n).

(** Modelled from the spec: [sizeofString], the 2-byte prefix plus the
    length of the string, an [int32]. *)
Definition sizeofString (s : string) : Z := int32 (2 + int32 (len_string s)).

(** Modelled from the spec: [sizeofArray(n, f)], the 4-byte count plus the
    sizes [f(0)], ..., [f(n-1)], accumulated in an [int32]. *)
Definition sizeofArray (n : nat) (f : nat -> Z) : Z :=
  foldl (fun s i => int32 (s + f i)) 4 (seq 0 n).

(** [xs[i].size()] for an index the loops above keep below [len(xs)]. *)
Definition sizeAt {A} (size : A -> Z) (xs : list A) (i : nat) : Z :=
  match xs !! i with Some x => size x | None => 0 end.

(** [xs[i].writeTo(wb)], likewise. *)
Definition writeAt {A} (writeTo : A -> writeBuffer -> writeBuffer) (xs : list A)
    (i : nat) (wb : writeBuffer) : writeBuffer :=
  match xs !! i with Some x => writeTo x wb | None => wb end.

(** The type [messageSet] is declared outside [fetch.go]; the response
    partition only calls its [size] and [writeTo]. *)
Class MessageSet (T : Type) : Type := {
  messageSet_size : T -> Z;
  messageSet_writeTo : T -> writeBuffer -> writeBuffer
}.

(** An instance for examples: a message set with no message occupies no
    byte. *)
#[export] Instance emptyMessageSet : MessageSet unit := {|
  messageSet_size := fun _ => 0;
  messageSet_writeTo := fun _ wb => wb
|}.

(** An instance for examples: a message set given by the bytes it is
    written as. *)
#[export] Instance rawMessageSet : MessageSet (list byte) := {|
  messageSet_size := fun bytes => int32 (Z.of_nat (length bytes));
  messageSet_writeTo := fun bytes wb => wb ++ bytes
|}.

(** *** fetchRequestV2 and its parts *)

Record fetchRequestPartitionV2 : Type := {
  fetchRequestPartitionV2_Partition : Z;
  fetchRequestPartitionV2_FetchOffset : Z;
  fetchRequestPartitionV2_MaxBytes : Z
}.

Definition fetchRequestPartitionV2_size (p : fetchRequestPartitionV2) : Z :=
  4 + 8 + 4.

Definition fetchRequestPartitionV2_writeTo (p : fetchRequestPartitionV2)
    (wb : writeBuffer) : writeBuffer :=
  let wb := writeInt32 (fetchRequestPartitionV2_Partition p) wb in
  let wb := writeInt64 (fetchRequestPartitionV2_FetchOffset p) wb in
  writeInt32 (fetchRequestPartitionV2_MaxBytes p) wb.

Record fetchRequestTopicV2 : Type := {
  fetchRequestTopicV2_TopicName : string;
  fetchRequestTopicV2_Partitions : list fetchRequestPartitionV2
}.

Definition fetchRequestTopicV2_size (t : fetchRequestTopicV2) : Z :=
  int32 (sizeofString (fetchRequestTopicV2_TopicName t) +
         sizeofArray (length (fetchRequestTopicV2_Partitions t))
           (sizeAt fetchRequestPartitionV2_size (fetchRequestTopicV2_Partitions t))).

Definition fetchRequestTopicV2_writeTo (t : fetchRequestTopicV2)
    (wb : writeBuffer) : writeBuffer :=
  let wb := writeString (fetchRequestTopicV2_TopicName t) wb in
  writeArray (length (fetchRequestTopicV2_Partitions t))
    (writeAt fetchRequestPartitionV2_writeTo (fetchRequestTopicV2_Partitions t)) wb.

Record fetchRequestV2 : Type := {
  fetchRequestV2_ReplicaID : Z;
  fetchRequestV2_MaxWaitTime : Z;
  fetchRequestV2_MinBytes : Z;
  fetchRequestV2_Topics : list fetchRequestTopicV2
}.

Definition fetchRequestV2_size (r : fetchRequestV2) : Z :=
  int32 (4 + 4 + 4 +
         sizeofArray (length (fetchRequestV2_Topics r))
           (sizeAt fetchRequestTopicV2_size (fetchRequestV2_Topics r))).

Definition fetchRequestV2_writeTo (r : fetchRequestV2) (wb : writeBuffer) : writeBuffer :=
  let wb := writeInt32 (fetchRequestV2_ReplicaID r) wb in
  let wb := writeInt32 (fetchRequestV2_MaxWaitTime r) wb in
  let wb := writeInt32 (fetchRequestV2_MinBytes r) wb in
  writeArray (length (fetchRequestV2_Topics r))
    (writeAt fetchRequestTopicV2_writeTo (fetchRequestV2_Topics r)) wb.

(** *** fetchResponseV2 and its parts *)

Section Response.
Context {messageSet : Type} `{!MessageSet messageSet}.

Record fetchResponsePartitionV2 : Type := {
  fetchResponsePartitionV2_Partition : Z;
  fetchResponsePartitionV2_ErrorCode : Z;
  fetchResponsePartitionV2_HighwaterMarkOffset : Z;
  fetchResponsePartitionV2_MessageSetSize : Z;
  fetchResponsePartitionV2_MessageSet : messageSet
}.

Definition fetchResponsePartitionV2_size (p : fetchResponsePartitionV2) : Z :=
  int32 (4 + 2 + 8 + 4 + messageSet_size (fetchResponsePartitionV2_MessageSet p)).

Definition fetchResponsePartitionV2_writeTo (p : fetchResponsePartitionV2)
    (wb : writeBuffer) : writeBuffer :=
  let wb := writeInt32 (fetchResponsePartitionV2_Partition p) wb in
  let wb := writeInt16 (fetchResponsePartitionV2_ErrorCode p) wb in
  let wb := writeInt64 (fetchResponsePartitionV2_HighwaterMarkOffset p) wb in
  let wb := writeInt32 (fetchResponsePartitionV2_MessageSetSize p) wb in
  messageSet_writeTo (fetchResponsePartitionV2_MessageSet p) wb.

Record fetchResponseTopicV2 : Type := {
  fetchResponseTopicV2_TopicName : string;
  fetchResponseTopicV2_Partitions : list fetchResponsePartitionV2
}.

Definition fetchResponseTopicV2_size (t : fetchResponseTopicV2) : Z :=
  int32 (sizeofString (fetchResponseTopicV2_TopicName t) +
         sizeofArray (length (fetchResponseTopicV2_Partitions t))
           (sizeAt fetchResponsePartitionV2_size (fetchResponseTopicV2_Partitions t))).

Definition fetchResponseTopicV2_writeTo (t : fetchResponseTopicV2)
    (wb : writeBuffer) : writeBuffer :=
  let wb := writeString (fetchResponseTopicV2_TopicName t) wb in
  writeArray (length (fetchResponseTopicV2_Partitions t))
    (writeAt fetchResponsePartitionV2_writeTo (fetchResponseTopicV2_Partitions t)) wb.

Record fetchResponseV2 : Type := {
  fetchResponseV2_ThrottleTime : Z;
  fetchResponseV2_Topics : list fetchResponseTopicV2
}.

Definition fetchResponseV2_size (r : fetchResponseV2) : Z :=
  int32 (4 +
         sizeofArray (length (fetchResponseV2_Topics r))
           (sizeAt fetchResponseTopicV2_size (fetchResponseV2_Topics r))).

Definition fetchResponseV2_writeTo (r : fetchResponseV2) (wb : writeBuffer) : writeBuffer :=
  let wb := writeInt32 (fetchResponseV2_ThrottleTime r) wb in
  writeArray (length (fetchResponseV2_Topics r))
    (writeAt fetchResponseTopicV2_writeTo (fetchResponseV2_Topics r)) wb.

End Response.

Arguments fetchResponsePartitionV2 messageSet : clear implicits.
Arguments fetchResponseTopicV2 messageSet : clear implicits.
Arguments fetchResponseV2 messageSet : clear implicits.

(** The number of bytes a write adds to the buffer. *)
Definition emitted (write : writeBuffer -> writeBuffer) (wb : writeBuffer) : Z :=
  Z.of_nat (length (write wb)) - Z.of_nat (length wb).

(** The pairing of a wire type's two methods: a write never shortens the
    buffer, and [size] is the number of bytes [writeTo] emits whenever that
    number fits an [int32]. *)
Definition Pairs {A} (size : A -> Z) (writeTo : A -> writeBuffer -> writeBuffer) : Prop :=
  forall x wb,
    0 <= emitted (writeTo x) wb /\
    (emitted (writeTo x) wb <= MaxInt32 -> size x = emitted (writeTo x) wb).

(** The pairing, asked of the message set a response partition embeds. *)
Class MessageSetPairing (T : Type) `{!MessageSet T} : Prop :=
  messageSet_pairs : Pairs (messageSet_size (T:=T)) messageSet_writeTo.

End Wire.
Export Wire.

(** ** Records, errors and the messages of package protocol/fetch *)

Module Protocol.

(** Modelled from the spec: a record of a batch (the type is declared
    outside [fetch.go]). *)
Record Record_ : Type := {
  Record_Offset : Z;
  Record_Key : list byte;
  Record_Value : list byte
}.

(** Modelled from the spec: a [RecordReader] is a single-pass cursor over
    the records of one batch; the model keeps the records still to be read. *)
Definition RecordReader : Type := list Record_.

(** Modelled from the spec: [ReadRecord] yields the next record and
    advances, or reports the end of the batch ([None]). *)
Definition RecordReader_ReadRecord (r : RecordReader) : option (Record_ * RecordReader) :=
  match r with
  | [] => None
  | x :: rest => Some (x, rest)
  end.

(** Modelled from the spec: [NewRecordReader(records...)]; with no argument
    it is the empty, immediately exhausted reader. *)
Definition NewRecordReader (records : list Record_) : RecordReader := records.

(** Go errors.  [Errorf prefix e] is [fmt.Errorf(prefix + ": %w", e)]. *)
Inductive error : Type :=
  | ErrNoTopic
  | ErrNoPartition
  | KafkaError (code : Z) (message : string)
  | TransportError (message : string)
  | Errorf (prefix : string) (wrapped : error).

#[export] Instance error_eq_dec : EqDecision error.
Proof. solve_decision. Defined.

(** [errors.Is(err, target)]: [err] or an error it wraps is [target]. *)
Fixpoint errors_Is (err target : error) : bool :=
  bool_decide (err = target) ||
  match err with
  | Errorf _ wrapped => errors_Is wrapped target
  | _ => false
  end.

(** Modelled from the spec: [makeError(code, message)], nil for code 0 and
    otherwise an error that keeps the code and the message. *)
Definition makeError (code : Z) (message : string) : option error :=
  if code =? 0 then None else Some (KafkaError code message).

End Protocol.
Export Protocol.

(** The request and response messages of package [protocol/fetch], with the
    fields [fetch.go] writes and reads.  A field the source leaves out of a
    composite literal has Go's zero value. *)
Module fetchAPI.

Record RequestPartition : Type := {
  RequestPartition_Partition : Z;
  RequestPartition_CurrentLeaderEpoch : Z;
  RequestPartition_FetchOffset : Z;
  RequestPartition_LogStartOffset : Z;
  RequestPartition_PartitionMaxBytes : Z
}.

Record RequestTopic : Type := {
  RequestTopic_Topic : string;
  RequestTopic_Partitions : list RequestPartition
}.

Record Request : Type := {
  Request_ReplicaID : Z;
  Request_MaxWaitTime : Z;
  Request_MinBytes : Z;
  Request_MaxBytes : Z;
  Request_IsolationLevel : Z;
  Request_SessionID : Z;
  Request_SessionEpoch : Z;
  Request_Topics : list RequestTopic
}.

(** [Records] is an interface value: [None] is nil. *)
Record RecordSet : Type := {
  RecordSet_Records : option RecordReader
}.

Record ResponsePartition : Type := {
  ResponsePartition_Partition : Z;
  ResponsePartition_ErrorCode : Z;
  ResponsePartition_HighWatermark : Z;
  ResponsePartition_LastStableOffset : Z;
  ResponsePartition_LogStartOffset : Z;
  ResponsePartition_RecordSet : RecordSet
}.

Record ResponseTopic : Type := {
  ResponseTopic_Topic : string;
  ResponseTopic_Partitions : list ResponsePartition
}.

(** [Topics] is a slice that may be nil ([None]). *)
Record Response : Type := {
  Response_ThrottleTimeMs : Z;
  Response_ErrorCode : Z;
  Response_Topics : option (list ResponseTopic)
}.

End fetchAPI.
Export fetchAPI.

(** The elements of a slice; a nil slice has none. *)
Definition elems {A} (s : option (list A)) : list A :=
  match s with
  | Some l => l
  | None => []
  end.

(** ** Package kafka: requests, responses and the client *)

(** [net.Addr], an opaque endpoint. *)
Definition Addr : Type := string.

Record FetchRequest : Type := {
  FetchRequest_Addr : Addr;
  FetchRequest_Topic : string;
  FetchRequest_Partition : Z;
  FetchRequest_Offset : Z;
  FetchRequest_MinBytes : Z;
  FetchRequest_MaxBytes : Z;
  FetchRequest_MaxWait : Z;
  FetchRequest_IsolationLevel : Z
}.

Record FetchResponse : Type := {
  FetchResponse_Throttle : Z;
  FetchResponse_Topic : string;
  FetchResponse_Partition : Z;
  FetchResponse_HighWatermark : Z;
  FetchResponse_LastStableOffset : Z;
  FetchResponse_LogStartOffset : Z;
  FetchResponse_Error : option error;
  FetchResponse_Records : option RecordReader
}.

Record FetchPartitionRequest : Type := {
  FetchPartitionRequest_Partition : Z;
  FetchPartitionRequest_Offset : Z;
  FetchPartitionRequest_MaxBytes : Z
}.

Record FetchPartitionResponse : Type := {
  FetchPartitionResponse_Partition : Z;
  FetchPartitionResponse_Error : option error;
  FetchPartitionResponse_HighWatermark : Z;
  FetchPartitionResponse_LastStableOffset : Z;
  FetchPartitionResponse_LogStartOffset : Z;
  FetchPartitionResponse_Records : option RecordReader
}.

Record MultiFetchRequest : Type := {
  MultiFetchRequest_Addr : Addr;
  MultiFetchRequest_Requests : gmap string (list FetchPartitionRequest);
  MultiFetchRequest_MinBytes : Z;
  MultiFetchRequest_MaxBytes : Z;
  MultiFetchRequest_MaxWait : Z;
  MultiFetchRequest_IsolationLevel : Z
}.

(** [Responses] is a map that stays nil ([None]) unless it is made. *)
Record MultiFetchResponse : Type := {
  MultiFetchResponse_Throttle : Z;
  MultiFetchResponse_Responses : option (gmap string (list FetchPartitionResponse));
  MultiFetchResponse_Error : option error
}.

(** What [roundTrip] hands back: an error, or a [protocol.Message]: a
    [*fetchAPI.Response] pointing to a response, a nil [*fetchAPI.Response],
    or anything else (another dynamic type, or no message at all). *)
Inductive Message : Type :=
  | FetchResponseMessage (res : Response)
  | NilFetchResponseMessage
  | OtherMessage.

Inductive RoundTripResult : Type :=
  | RoundTripError (err : error)
  | RoundTripMessage (m : Message).

(** One call of the transport, and the calls made so far. *)
Definition Call : Type := (Addr * Request)%type.
Definition Trace : Type := list Call.

(** What a Go function returning a pointer and an error does: it returns
    the pair, or it panics (a failed type assertion, a nil pointer
    dereferenced). *)
Inductive Outcome (T : Type) : Type :=
  | Returned (ret : option T) (err : option error)
  | Panicked.
Arguments Returned {T} ret err.
Arguments Panicked {T}.

(** The rest of package [kafka] that [fetch.go] calls and that is declared
    in other files: the client with its [timeout] method and its transport,
    the two duration helpers, the constant [defaultMaxWait], and the order in
    which the runtime ranges over the [Requests] map (any order of its
    entries). *)
Class Package : Type := {
  context_Context : Type;
  Client : Type;
  Client_timeout : Client -> context_Context -> Z -> Z;
  Client_reply : Client -> context_Context -> Addr -> Request -> Trace -> RoundTripResult;
  milliseconds : Z -> Z;
  makeDuration : Z -> Z;
  defaultMaxWait : Z;
  rangeRequests :
    gmap string (list FetchPartitionRequest) -> list (string * list FetchPartitionRequest);
  rangeRequests_perm : forall m, rangeRequests m ≡ₚ map_to_list m
}.

(** ** Calls of the transport: a state monad over the trace *)

Definition IO (A : Type) : Type := Trace -> A * Trace.

#[export] Instance IO_ret : MRet IO := fun A (a : A) tr => (a, tr).

#[export] Instance IO_bind : MBind IO :=
  fun A B (k : A -> IO B) (m : IO A) tr => k (m tr).1 (m tr).2.

(** The value an action returns from a given trace, and the trace it leaves. *)
Definition result {A} (m : IO A) (tr : Trace) : A := (m tr).1.
Definition calls {A} (m : IO A) (tr : Trace) : Trace := (m tr).2.

(** ** Fetch and MultiFetch *)

Section Operations.
Context `{pkg : Package}.

(** [c.roundTrip(ctx, addr, msg)]: one call of the transport, recorded. *)
Definition roundTrip (c : Client) (ctx : context_Context) (addr : Addr) (msg : Request)
    : IO RoundTripResult :=
  fun tr => (Client_reply c ctx addr msg tr, tr ++ [(addr, msg)]).

Definition FetchRequest_maxWait (req : FetchRequest) : Z :=
  if 0 <? FetchRequest_MaxWait req then FetchRequest_MaxWait req else defaultMaxWait.

Definition MultiFetchRequest_maxWait (req : MultiFetchRequest) : Z :=
  if 0 <? MultiFetchRequest_MaxWait req then MultiFetchRequest_MaxWait req else defaultMaxWait.

(** The message [Fetch] sends. *)
Definition Fetch_message (c : Client) (ctx : context_Context) (req : FetchRequest) : Request :=
  let timeout := Client_timeout c ctx MaxInt64 in
  let maxWait := FetchRequest_maxWait req in
  let timeout := if maxWait <? timeout then maxWait else timeout in
  {| Request_ReplicaID := -1;
     Request_MaxWaitTime := milliseconds timeout;
     Request_MinBytes := int32 (FetchRequest_MinBytes req);
     Request_MaxBytes := int32 (FetchRequest_MaxBytes req);
     Request_IsolationLevel := int8 (FetchRequest_IsolationLevel req);
     Request_SessionID := -1;
     Request_SessionEpoch := -1;
     Request_Topics :=
       [ {| RequestTopic_Topic := FetchRequest_Topic req;
            RequestTopic_Partitions :=
              [ {| RequestPartition_Partition := int32 (FetchRequest_Partition req);
                   RequestPartition_CurrentLeaderEpoch := -1;
                   RequestPartition_FetchOffset := FetchRequest_Offset req;
                   RequestPartition_LogStartOffset := -1;
                   RequestPartition_PartitionMaxBytes := int32 (FetchRequest_MaxBytes req) |} ] |} ] |}.

Definition FetchResponse_setError (e : option error) (r : FetchResponse) : FetchResponse :=
  {| FetchResponse_Throttle := FetchResponse_Throttle r;
     FetchResponse_Topic := FetchResponse_Topic r;
     FetchResponse_Partition := FetchResponse_Partition r;
     FetchResponse_HighWatermark := FetchResponse_HighWatermark r;
     FetchResponse_LastStableOffset := FetchResponse_LastStableOffset r;
     FetchResponse_LogStartOffset := FetchResponse_LogStartOffset r;
     FetchResponse_Error := e;
     FetchResponse_Records := FetchResponse_Records r |}.

Definition FetchResponse_setRecords (rs : option RecordReader) (r : FetchResponse)
    : FetchResponse :=
  {| FetchResponse_Throttle := FetchResponse_Throttle r;
     FetchResponse_Topic := FetchResponse_Topic r;
     FetchResponse_Partition := FetchResponse_Partition r;
     FetchResponse_HighWatermark := FetchResponse_HighWatermark r;
     FetchResponse_LastStableOffset := FetchResponse_LastStableOffset r;
     FetchResponse_LogStartOffset := FetchResponse_LogStartOffset r;
     FetchResponse_Error := FetchResponse_Error r;
     FetchResponse_Records := rs |}.

(** The part of [Fetch] after the type assertion: the checks on the reply
    and the response built from its first topic and partition. *)
Definition Fetch_response (res : Response) : Outcome FetchResponse :=
  match elems (Response_Topics res) with
  | [] => Returned None (Some (Errorf "kafka.(*Client).Fetch" ErrNoTopic))
  | topic :: _ =>
    match ResponseTopic_Partitions topic with
    | [] => Returned None (Some (Errorf "kafka.(*Client).Fetch" ErrNoPartition))
    | partition :: _ =>
      let ret :=
        {| FetchResponse_Throttle := makeDuration (Response_ThrottleTimeMs res);
           FetchResponse_Topic := ResponseTopic_Topic topic;
           FetchResponse_Partition := ResponsePartition_Partition partition;
           FetchResponse_Error := makeError (Response_ErrorCode res) "";
           FetchResponse_HighWatermark := ResponsePartition_HighWatermark partition;
           FetchResponse_LastStableOffset := ResponsePartition_LastStableOffset partition;
           FetchResponse_LogStartOffset := ResponsePartition_LogStartOffset partition;
           FetchResponse_Records :=
             RecordSet_Records (ResponsePartition_RecordSet partition) |} in
      let ret :=
        if ResponsePartition_ErrorCode partition =? 0 then ret
        else FetchResponse_setError (makeError (ResponsePartition_ErrorCode partition) "") ret in
      let ret :=
        match FetchResponse_Records ret with
        | None => FetchResponse_setRecords (Some (NewRecordReader [])) ret
        | Some _ => ret
        end in
      Returned (Some ret) None
    end
  end.

Definition Fetch (c : Client) (ctx : context_Context) (req : FetchRequest)
    : IO (Outcome FetchResponse) :=
  r ← roundTrip c ctx (FetchRequest_Addr req) (Fetch_message c ctx req);
  match r with
  | RoundTripError err => mret (Returned None (Some (Errorf "kafka.(*Client).Fetch" err)))
  | RoundTripMessage (FetchResponseMessage res) => mret (Fetch_response res)
  | RoundTripMessage NilFetchResponseMessage => mret Panicked
  | RoundTripMessage OtherMessage => mret Panicked
  end.

(** The wire partition of one partition spec of a [MultiFetchRequest]. *)
Definition MultiFetch_partition (req : MultiFetchRequest) (partition : FetchPartitionRequest)
    : RequestPartition :=
  let maxBytes := FetchPartitionRequest_MaxBytes partition in
  let maxBytes := if maxBytes =? 0 then MultiFetchRequest_MaxBytes req else maxBytes in
  {| RequestPartition_Partition := int32 (FetchPartitionRequest_Partition partition);
     RequestPartition_CurrentLeaderEpoch := -1;
     RequestPartition_FetchOffset := FetchPartitionRequest_Offset partition;
     RequestPartition_LogStartOffset := -1;
     RequestPartition_PartitionMaxBytes := int32 maxBytes |}.

(** The wire topics of a [MultiFetchRequest]: one per entry of [Requests],
    in the order the runtime ranges over the map. *)
Definition MultiFetch_topics (req : MultiFetchRequest) : list RequestTopic :=
  map (fun entry : string * list FetchPartitionRequest =>
         {| RequestTopic_Topic := entry.1;
            RequestTopic_Partitions := map (MultiFetch_partition req) entry.2 |})
      (rangeRequests (MultiFetchRequest_Requests req)).

(** The message [MultiFetch] sends. *)
Definition MultiFetch_message (c : Client) (ctx : context_Context) (req : MultiFetchRequest)
    : Request :=
  let timeout := Client_timeout c ctx MaxInt64 in
  let maxWait := MultiFetchRequest_maxWait req in
  let timeout := if maxWait <? timeout then maxWait else timeout in
  {| Request_ReplicaID := -1;
     Request_MaxWaitTime := milliseconds timeout;
     Request_MinBytes := int32 (MultiFetchRequest_MinBytes req);
     Request_MaxBytes := int32 (MultiFetchRequest_MaxBytes req);
     Request_IsolationLevel := int8 (MultiFetchRequest_IsolationLevel req);
     Request_SessionID := 0;
     Request_SessionEpoch := 0;
     Request_Topics := MultiFetch_topics req |}.

(** The response entry built from one decoded partition. *)
Definition MultiFetch_partitionResponse (p : ResponsePartition) : FetchPartitionResponse :=
  let records := RecordSet_Records (ResponsePartition_RecordSet p) in
  {| FetchPartitionResponse_Partition := ResponsePartition_Partition p;
     FetchPartitionResponse_Error := makeError (ResponsePartition_ErrorCode p) "";
     FetchPartitionResponse_HighWatermark := ResponsePartition_HighWatermark p;
     FetchPartitionResponse_LastStableOffset := ResponsePartition_LastStableOffset p;
     FetchPartitionResponse_LogStartOffset := ResponsePartition_LogStartOffset p;
     FetchPartitionResponse_Records :=
       match records with
       | None => Some (NewRecordReader [])
       | Some _ => records
       end |}.

(** The loop over the decoded topics: [ret.Responses[t.Topic] = partitions]. *)
Definition MultiFetch_responses (topics : list ResponseTopic)
    : gmap string (list FetchPartitionResponse) :=
  foldl (fun responses t =>
           <[ResponseTopic_Topic t :=
               map MultiFetch_partitionResponse (ResponseTopic_Partitions t)]> responses)
        ∅ topics.

(** The part of [MultiFetch] after the type assertion. *)
Definition MultiFetch_response (res : Response) : MultiFetchResponse :=
  {| MultiFetchResponse_Throttle := makeDuration (Response_ThrottleTimeMs res);
     MultiFetchResponse_Error := makeError (Response_ErrorCode res) "";
     MultiFetchResponse_Responses :=
       match Response_Topics res with
       | None => None
       | Some topics => Some (MultiFetch_responses topics)
       end |}.

Definition MultiFetch (c : Client) (ctx : context_Context) (req : MultiFetchRequest)
    : IO (Outcome MultiFetchResponse) :=
  let topics := MultiFetch_topics req in
  if (length topics =? 0)%nat then
    mret (Returned None (Some (Errorf "kafka.(*Client).MultiFetch" ErrNoTopic)))
  else
    r ← roundTrip c ctx (MultiFetchRequest_Addr req) (MultiFetch_message c ctx req);
    match r with
    | RoundTripError err =>
      mret (Returned None (Some (Errorf "kafka.(*Client).MultiFetch" err)))
    | RoundTripMessage (FetchResponseMessage res) =>
      mret (Returned (Some (MultiFetch_response res)) None)
    | RoundTripMessage NilFetchResponseMessage => mret Panicked
    | RoundTripMessage OtherMessage => mret Panicked
    end.

End Operations.

(** ** A mock package

    A client that is its broker's reply to each message, with no deadline
    of its own; durations are nanoseconds. *)

Definition mockClient : Type := Request -> RoundTripResult.

Definition mock_rangeRequests_perm (m : gmap string (list FetchPartitionRequest))
    : map_to_list m ≡ₚ map_to_list m := Permutation_refl _.

Definition mockPackage : Package := {|
  context_Context := unit;
  Client := mockClient;
  Client_timeout := fun _ _ defaultTimeout => defaultTimeout;
  Client_reply := fun c _ _ msg _ => c msg;
  milliseconds := fun d => int32 (d / 1000000);
  makeDuration := fun ms => ms * 1000000;
  defaultMaxWait := 500000000;
  rangeRequests := map_to_list;
  rangeRequests_perm := mock_rangeRequests_perm
|}.

Definition mockFetch (c : mockClient) (req : FetchRequest) : IO (Outcome FetchResponse) :=
  Fetch (pkg:=mockPackage) c tt req.

Definition mockMultiFetch (c : mockClient) (req : MultiFetchRequest)
    : IO (Outcome MultiFetchResponse) :=
  MultiFetch (pkg:=mockPackage) c tt req.

(** The broker that answers every message with [res]. *)
Definition replyBroker (res : Response) : mockClient :=
  fun _ => RoundTripMessage (FetchResponseMessage res).

(** ** Example values *)

Definition exampleRequestV2 : fetchRequestV2 := {|
  fetchRequestV2_ReplicaID := -1;
  fetchRequestV2_MaxWaitTime := 500;
  fetchRequestV2_MinBytes := 1;
  fetchRequestV2_Topics :=
    [ {| fetchRequestTopicV2_TopicName := "";
         fetchRequestTopicV2_Partitions := [] |};
      {| fetchRequestTopicV2_TopicName := "events";
         fetchRequestTopicV2_Partitions :=
           [ {| fetchRequestPartitionV2_Partition := 0;
                fetchRequestPartitionV2_FetchOffset := -1;
                fetchRequestPartitionV2_MaxBytes := 1048576 |} ] |} ]
|}.

Definition exampleResponseV2 : fetchResponseV2 unit := {|
  fetchResponseV2_ThrottleTime := 0;
  fetchResponseV2_Topics :=
    [ {| fetchResponseTopicV2_TopicName := "events";
         fetchResponseTopicV2_Partitions :=
           [ {| fetchResponsePartitionV2_Partition := 0;
                fetchResponsePartitionV2_ErrorCode := 0;
                fetchResponsePartitionV2_HighwaterMarkOffset := 100;
                fetchResponsePartitionV2_MessageSetSize := 0;
                fetchResponsePartitionV2_MessageSet := tt |} ] |};
      {| fetchResponseTopicV2_TopicName := "";
         fetchResponseTopicV2_Partitions := [] |} ]
|}.

(** A response partition whose message set is the three bytes 7, 8, 9. *)
Definition exampleRawPartitionV2 : fetchResponsePartitionV2 (list byte) := {|
  fetchResponsePartitionV2_Partition := 1;
  fetchResponsePartitionV2_ErrorCode := 0;
  fetchResponsePartitionV2_HighwaterMarkOffset := 100;
  fetchResponsePartitionV2_MessageSetSize := 3;
  fetchResponsePartitionV2_MessageSet := [7; 8; 9]
|}.

(** A topic with 2^27 partitions of 16 bytes each. *)
Definition oversizedTopicV2 : fetchRequestTopicV2 := {|
  fetchRequestTopicV2_TopicName := "";
  fetchRequestTopicV2_Partitions :=
    replicate (Z.to_nat 134217728)
      {| fetchRequestPartitionV2_Partition := 0;
         fetchRequestPartitionV2_FetchOffset := 0;
         fetchRequestPartitionV2_MaxBytes := 0 |}
|}.

Definition exampleFetchRequest : FetchRequest := {|
  FetchRequest_Addr := "broker:9092";
  FetchRequest_Topic := "events";
  FetchRequest_Partition := 0;
  FetchRequest_Offset := 42;
  FetchRequest_MinBytes := 1;
  FetchRequest_MaxBytes := 1048576;
  FetchRequest_MaxWait := 250000000;
  FetchRequest_IsolationLevel := 0
|}.

(** The same request with [MaxBytes] = 2^31. *)
Definition oversizedFetchRequest : FetchRequest := {|
  FetchRequest_Addr := "broker:9092";
  FetchRequest_Topic := "events";
  FetchRequest_Partition := 0;
  FetchRequest_Offset := 42;
  FetchRequest_MinBytes := 1;
  FetchRequest_MaxBytes := 2147483648;
  FetchRequest_MaxWait := 250000000;
  FetchRequest_IsolationLevel := 0
|}.

Definition examplePartition (partition errorCode : Z) (records : option RecordReader)
    : ResponsePartition := {|
  ResponsePartition_Partition := partition;
  ResponsePartition_ErrorCode := errorCode;
  ResponsePartition_HighWatermark := 100;
  ResponsePartition_LastStableOffset := 0;
  ResponsePartition_LogStartOffset := 0;
  ResponsePartition_RecordSet := {| RecordSet_Records := records |}
|}.

Definition exampleReply (errorCode : Z) (topics : list ResponseTopic) : Response := {|
  Response_ThrottleTimeMs := 0;
  Response_ErrorCode := errorCode;
  Response_Topics := Some topics
|}.

(** Global error code 6 and partition error code 1, no records. *)
Definition reply_both_errors : Response :=
  exampleReply 6
    [ {| ResponseTopic_Topic := "events";
         ResponseTopic_Partitions := [ examplePartition 0 1 None ] |} ].

Definition reply_no_topic : Response := exampleReply 0 [].

Definition reply_no_partition : Response :=
  exampleReply 0 [ {| ResponseTopic_Topic := "events"; ResponseTopic_Partitions := [] |} ].

(** A reply about another topic and partition than [exampleFetchRequest]'s. *)
Definition reply_other_topic : Response :=
  exampleReply 0
    [ {| ResponseTopic_Topic := "other";
         ResponseTopic_Partitions := [ examplePartition 7 0 None ] |} ].

Definition reply_two_topics : Response :=
  exampleReply 0
    [ {| ResponseTopic_Topic := "a";
         ResponseTopic_Partitions := [ examplePartition 0 0 None ] |};
      {| ResponseTopic_Topic := "b";
         ResponseTopic_Partitions := [ examplePartition 1 3 None ] |} ].

(** A reply with two entries for topic "a". *)
Definition reply_duplicate_topic : Response :=
  exampleReply 0
    [ {| ResponseTopic_Topic := "a";
         ResponseTopic_Partitions := [ examplePartition 0 0 None ] |};
      {| ResponseTopic_Topic := "a";
         ResponseTopic_Partitions := [ examplePartition 1 0 None ] |} ].

Definition exampleMultiFetch (requests : gmap string (list FetchPartitionRequest))
    : MultiFetchRequest := {|
  MultiFetchRequest_Addr := "broker:9092";
  MultiFetchRequest_Requests := requests;
  MultiFetchRequest_MinBytes := 1;
  MultiFetchRequest_MaxBytes := 1048576;
  MultiFetchRequest_MaxWait := 0;
  MultiFetchRequest_IsolationLevel := 0
|}.

Definition exampleSpec (partition offset maxBytes : Z) : FetchPartitionRequest := {|
  FetchPartitionRequest_Partition := partition;
  FetchPartitionRequest_Offset := offset;
  FetchPartitionRequest_MaxBytes := maxBytes
|}.

Definition request_two_topics : MultiFetchRequest :=
  exampleMultiFetch {[ "a" := [ exampleSpec 0 0 0 ]; "b" := [ exampleSpec 1 5 4096 ] ]}.

(** One topic, no partition spec. *)
Definition request_topic_without_partitions : MultiFetchRequest :=
  exampleMultiFetch {[ "a" := [] ]}.

(** One partition spec with [MaxBytes] = -1. *)
Definition request_negative_MaxBytes : MultiFetchRequest :=
  exampleMultiFetch {[ "a" := [ exampleSpec 0 0 (-1) ] ]}.

Definition request_no_topic : MultiFetchRequest := exampleMultiFetch ∅.

(** For each call of a trace, the topics of its message, each with the
    [PartitionMaxBytes] of its partitions. *)
Definition sentPartitionMaxBytes (tr : Trace) : list (list (string * list Z)) :=
  map (fun call : Call =>
         map (fun topic =>
                (RequestTopic_Topic topic,
                 map RequestPartition_PartitionMaxBytes (RequestTopic_Partitions topic)))
             (Request_Topics call.2))
      tr.

(** ** Facts about the integer conversions *)

(** Unfolds [int32] down to [mod] on numerals. *)
Ltac unfold_int32 :=
  unfold int32, wrap, MinInt32, MaxInt32 in *;
  change (2 ^ (32 - 1)) with 2147483648 in *;
  change (2 ^ 32) with 4294967296 in *.

Lemma int32_range z : MinInt32 <= int32 z <= MaxInt32.
Proof.
  unfold_int32. pose proof (Z.mod_pos_bound (z + 2147483648) 4294967296). lia.
Qed.

Lemma int32_id z : MinInt32 <= z <= MaxInt32 -> int32 z = z.
Proof. unfold_int32. intros Hz. rewrite Z.mod_small; lia. Qed.

Lemma int32_add_l a b : int32 (int32 a + b) = int32 (a + b).
Proof.
  unfold_int32. f_equal.
  replace ((a + 2147483648) mod 4294967296 - 2147483648 + b + 2147483648)
    with ((a + 2147483648) mod 4294967296 + b) by lia.
  rewrite Zplus_mod_idemp_l. f_equal. lia.
Qed.

(** ** The wire codec: bytes emitted against [size] *)

Lemma length_bigEndian width v : length (bigEndian width v) = width.
Proof. unfold bigEndian. by rewrite length_map, length_rev, length_seq. Qed.

(** A loop over the indices of a slice visits its elements in order. *)
Lemma foldl_index {A B} (F : option A -> B -> B) (xs : list A) (b : B) :
  foldl (fun acc i => F (xs !! i) acc) b (seq 0 (length xs))
  = foldl (fun acc x => F (Some x) acc) b xs.
Proof.
  enough (Hgen : forall pre b,
    foldl (fun acc i => F ((pre ++ xs) !! i) acc) b (seq (length pre) (length xs))
    = foldl (fun acc x => F (Some x) acc) b xs) by apply (Hgen []).
  induction xs as [|x xs IH]; intros pre b0; [done|].
  cbn [length seq foldl]. rewrite list_lookup_middle by done.
  specialize (IH (pre ++ [x]) (F (Some x) b0)).
  rewrite <- app_assoc, length_app in IH. cbn in IH.
  by replace (length pre + 1)%nat with (S (length pre)) in IH by lia.
Qed.

Lemma emitted_app bs wb : emitted (fun b => b ++ bs) wb = Z.of_nat (length bs).
Proof. unfold emitted. rewrite length_app. lia. Qed.

Lemma emitted_writeInt16 i wb : emitted (writeInt16 i) wb = 2.
Proof. unfold writeInt16. by rewrite emitted_app, length_bigEndian. Qed.

Lemma emitted_writeInt32 i wb : emitted (writeInt32 i) wb = 4.
Proof. unfold writeInt32. by rewrite emitted_app, length_bigEndian. Qed.

Lemma emitted_writeInt64 i wb : emitted (writeInt64 i) wb = 8.
Proof. unfold writeInt64. by rewrite emitted_app, length_bigEndian. Qed.

Lemma emitted_seq (w1 w2 : writeBuffer -> writeBuffer) wb :
  emitted (fun b => w2 (w1 b)) wb = emitted w1 wb + emitted w2 (w1 wb).
Proof. unfold emitted. lia. Qed.

Lemma length_stringBytes s : Z.of_nat (length (stringBytes s)) = len_string s.
Proof.
  unfold stringBytes, len_string. rewrite length_map. f_equal.
  induction s as [|c s IH]; cbn; [done|]. by rewrite IH.
Qed.

Lemma emitted_writeString s wb : emitted (writeString s) wb = 2 + len_string s.
Proof.
  unfold writeString.
  rewrite (emitted_seq (writeInt16 _) (fun b => b ++ stringBytes s)).
  by rewrite emitted_writeInt16, emitted_app, length_stringBytes.
Qed.

Lemma len_string_nonneg s : 0 <= len_string s.
Proof. unfold len_string. lia. Qed.

Lemma sizeofString_exact s :
  2 + len_string s <= MaxInt32 -> sizeofString s = 2 + len_string s.
Proof.
  intros Hs. pose proof (len_string_nonneg s). unfold sizeofString.
  unfold MaxInt32 in Hs.
  rewrite (int32_id (len_string s)) by (unfold MinInt32, MaxInt32; lia).
  apply int32_id. unfold MinInt32, MaxInt32; lia.
Qed.

Section Arrays.
Context {A : Type} (size : A -> Z) (writeTo : A -> writeBuffer -> writeBuffer).
Hypothesis Hpairs : Pairs size writeTo.

Lemma emitted_elements_nonneg xs wb :
  0 <= emitted (fun b => foldl (fun acc x => writeTo x acc) b xs) wb.
Proof.
  revert wb. induction xs as [|x xs IH]; intros wb; cbn [foldl].
  - unfold emitted. lia.
  - rewrite (emitted_seq (writeTo x) (fun b => foldl (fun acc y => writeTo y acc) b xs)).
    pose proof (proj1 (Hpairs x wb)). specialize (IH (writeTo x wb)). lia.
Qed.

Lemma sizes_exact xs wb s :
  0 <= s ->
  s + emitted (fun b => foldl (fun acc x => writeTo x acc) b xs) wb <= MaxInt32 ->
  foldl (fun acc x => int32 (acc + size x)) s xs
  = s + emitted (fun b => foldl (fun acc x => writeTo x acc) b xs) wb.
Proof.
  revert wb s. induction xs as [|x xs IH]; intros wb s Hs; cbn [foldl].
  - unfold emitted. lia.
  - rewrite (emitted_seq (writeTo x) (fun b => foldl (fun acc y => writeTo y acc) b xs)).
    intros Hle. destruct (Hpairs x wb) as [Hx0 Hx].
    pose proof (emitted_elements_nonneg xs (writeTo x wb)) as Hrest.
    rewrite Hx by lia.
    rewrite int32_id by (unfold MinInt32; unfold MaxInt32 in *; lia).
    rewrite (IH (writeTo x wb)) by lia. lia.
Qed.

Lemma writeArray_elements xs wb :
  writeArray (length xs) (writeAt writeTo xs) wb
  = foldl (fun acc x => writeTo x acc) (writeInt32 (int32 (Z.of_nat (length xs))) wb) xs.
Proof.
  unfold writeArray, writeAt.
  apply (foldl_index (fun o acc => match o with Some x => writeTo x acc | None => acc end)).
Qed.

Lemma sizeofArray_elements xs :
  sizeofArray (length xs) (sizeAt size xs) = foldl (fun acc x => int32 (acc + size x)) 4 xs.
Proof.
  unfold sizeofArray, sizeAt.
  apply (foldl_index (fun o acc => int32 (acc + match o with Some x => size x | None => 0 end))).
Qed.

Lemma emitted_writeArray xs wb :
  emitted (writeArray (length xs) (writeAt writeTo xs)) wb
  = 4 + emitted (fun b => foldl (fun acc x => writeTo x acc) b xs)
          (writeInt32 (int32 (Z.of_nat (length xs))) wb).
Proof.
  pose proof (emitted_seq (writeInt32 (int32 (Z.of_nat (length xs))))
                (fun b => foldl (fun acc x => writeTo x acc) b xs) wb) as Hseq.
  rewrite emitted_writeInt32 in Hseq. rewrite <- Hseq.
  unfold emitted. by rewrite writeArray_elements.
Qed.

Lemma array_pairs xs wb :
  4 <= emitted (writeArray (length xs) (writeAt writeTo xs)) wb /\
  (emitted (writeArray (length xs) (writeAt writeTo xs)) wb <= MaxInt32 ->
   sizeofArray (length xs) (sizeAt size xs)
   = emitted (writeArray (length xs) (writeAt writeTo xs)) wb).
Proof.
  rewrite emitted_writeArray, sizeofArray_elements.
  pose proof (emitted_elements_nonneg xs (writeInt32 (int32 (Z.of_nat (length xs))) wb)).
  split; [lia|]. intros Hle. by apply sizes_exact.
Qed.

End Arrays.

Lemma fetchRequestPartitionV2_emitted p wb :
  emitted (fetchRequestPartitionV2_writeTo p) wb = 16.
Proof.
  unfold fetchRequestPartitionV2_writeTo.
  rewrite (emitted_seq (fun b => writeInt64 _ (writeInt32 _ b)) (writeInt32 _)).
  rewrite (emitted_seq (writeInt32 _) (writeInt64 _)).
  by rewrite !emitted_writeInt32, emitted_writeInt64.
Qed.

Lemma fetchRequestPartitionV2_pairs :
  Pairs fetchRequestPartitionV2_size fetchRequestPartitionV2_writeTo.
Proof. intros p wb. rewrite fetchRequestPartitionV2_emitted. by split. Qed.

Lemma fetchRequestTopicV2_emitted t wb :
  emitted (fetchRequestTopicV2_writeTo t) wb
  = 2 + len_string (fetchRequestTopicV2_TopicName t)
    + emitted (writeArray (length (fetchRequestTopicV2_Partitions t))
                 (writeAt fetchRequestPartitionV2_writeTo (fetchRequestTopicV2_Partitions t)))
        (writeString (fetchRequestTopicV2_TopicName t) wb).
Proof.
  unfold fetchRequestTopicV2_writeTo.
  rewrite (emitted_seq (writeString _) (writeArray _ _)).
  by rewrite emitted_writeString.
Qed.

Lemma fetchRequestTopicV2_pairs : Pairs fetchRequestTopicV2_size fetchRequestTopicV2_writeTo.
Proof.
  intros t wb. rewrite fetchRequestTopicV2_emitted.
  pose proof (len_string_nonneg (fetchRequestTopicV2_TopicName t)) as Hlen.
  destruct (array_pairs _ _ fetchRequestPartitionV2_pairs (fetchRequestTopicV2_Partitions t)
              (writeString (fetchRequestTopicV2_TopicName t) wb)) as [Hge Heq].
  split; [lia|]. intros Hle. unfold fetchRequestTopicV2_size.
  rewrite Heq by lia. rewrite sizeofString_exact by lia.
  apply int32_id. unfold MinInt32. lia.
Qed.

Lemma fetchRequestV2_emitted r wb :
  emitted (fetchRequestV2_writeTo r) wb
  = 12 + emitted (writeArray (length (fetchRequestV2_Topics r))
                    (writeAt fetchRequestTopicV2_writeTo (fetchRequestV2_Topics r)))
           (writeInt32 (fetchRequestV2_MinBytes r)
              (writeInt32 (fetchRequestV2_MaxWaitTime r)
                 (writeInt32 (fetchRequestV2_ReplicaID r) wb))).
Proof.
  unfold fetchRequestV2_writeTo.
  rewrite (emitted_seq (fun b => writeInt32 _ (writeInt32 _ (writeInt32 _ b))) (writeArray _ _)).
  rewrite (emitted_seq (fun b => writeInt32 _ (writeInt32 _ b)) (writeInt32 _)).
  rewrite (emitted_seq (writeInt32 _) (writeInt32 _)).
  rewrite !emitted_writeInt32. lia.
Qed.

Lemma fetchRequestV2_pairs : Pairs fetchRequestV2_size fetchRequestV2_writeTo.
Proof.
  intros r wb. rewrite fetchRequestV2_emitted.
  destruct (array_pairs _ _ fetchRequestTopicV2_pairs (fetchRequestV2_Topics r)
              (writeInt32 (fetchRequestV2_MinBytes r)
                 (writeInt32 (fetchRequestV2_MaxWaitTime r)
                    (writeInt32 (fetchRequestV2_ReplicaID r) wb)))) as [Hge Heq].
  split; [lia|]. intros Hle. unfold fetchRequestV2_size.
  rewrite Heq by lia. change (4 + 4 + 4) with 12.
  apply int32_id. unfold MinInt32. lia.
Qed.

Section ResponsePairs.
Context {messageSet : Type} `{!MessageSet messageSet} `{!MessageSetPairing messageSet}.

Lemma fetchResponsePartitionV2_emitted (p : fetchResponsePartitionV2 messageSet) wb :
  emitted (fetchResponsePartitionV2_writeTo p) wb
  = 18 + emitted (messageSet_writeTo (fetchResponsePartitionV2_MessageSet p))
           (writeInt32 (fetchResponsePartitionV2_MessageSetSize p)
              (writeInt64 (fetchResponsePartitionV2_HighwaterMarkOffset p)
                 (writeInt16 (fetchResponsePartitionV2_ErrorCode p)
                    (writeInt32 (fetchResponsePartitionV2_Partition p) wb)))).
Proof.
  unfold fetchResponsePartitionV2_writeTo.
  rewrite (emitted_seq (fun b => writeInt32 _ (writeInt64 _ (writeInt16 _ (writeInt32 _ b))))
             (messageSet_writeTo _)).
  rewrite (emitted_seq (fun b => writeInt64 _ (writeInt16 _ (writeInt32 _ b))) (writeInt32 _)).
  rewrite (emitted_seq (fun b => writeInt16 _ (writeInt32 _ b)) (writeInt64 _)).
  rewrite (emitted_seq (writeInt32 _) (writeInt16 _)).
  rewrite !emitted_writeInt32, emitted_writeInt16, emitted_writeInt64. lia.
Qed.

Lemma fetchResponsePartitionV2_pairs :
  Pairs (fetchResponsePartitionV2_size (messageSet:=messageSet)) fetchResponsePartitionV2_writeTo.
Proof.
  intros p wb. rewrite fetchResponsePartitionV2_emitted.
  destruct (messageSet_pairs (fetchResponsePartitionV2_MessageSet p)
              (writeInt32 (fetchResponsePartitionV2_MessageSetSize p)
                 (writeInt64 (fetchResponsePartitionV2_HighwaterMarkOffset p)
                    (writeInt16 (fetchResponsePartitionV2_ErrorCode p)
                       (writeInt32 (fetchResponsePartitionV2_Partition p) wb))))) as [Hge Heq].
  split; [lia|]. intros Hle. unfold fetchResponsePartitionV2_size.
  rewrite Heq by lia. change (4 + 2 + 8 + 4) with 18.
  apply int32_id. unfold MinInt32. lia.
Qed.

Lemma fetchResponseTopicV2_emitted (t : fetchResponseTopicV2 messageSet) wb :
  emitted (fetchResponseTopicV2_writeTo t) wb
  = 2 + len_string (fetchResponseTopicV2_TopicName t)
    + emitted (writeArray (length (fetchResponseTopicV2_Partitions t))
                 (writeAt fetchResponsePartitionV2_writeTo (fetchResponseTopicV2_Partitions t)))
        (writeString (fetchResponseTopicV2_TopicName t) wb).
Proof.
  unfold fetchResponseTopicV2_writeTo.
  rewrite (emitted_seq (writeString _) (writeArray _ _)).
  by rewrite emitted_writeString.
Qed.

Lemma fetchResponseTopicV2_pairs :
  Pairs (fetchResponseTopicV2_size (messageSet:=messageSet)) fetchResponseTopicV2_writeTo.
Proof.
  intros t wb. rewrite fetchResponseTopicV2_emitted.
  pose proof (len_string_nonneg (fetchResponseTopicV2_TopicName t)) as Hlen.
  destruct (array_pairs _ _ fetchResponsePartitionV2_pairs (fetchResponseTopicV2_Partitions t)
              (writeString (fetchResponseTopicV2_TopicName t) wb)) as [Hge Heq].
  split; [lia|]. intros Hle. unfold fetchResponseTopicV2_size.
  rewrite Heq by lia. rewrite sizeofString_exact by lia.
  apply int32_id. unfold MinInt32. lia.
Qed.

Lemma fetchResponseV2_emitted (r : fetchResponseV2 messageSet) wb :
  emitted (fetchResponseV2_writeTo r) wb
  = 4 + emitted (writeArray (length (fetchResponseV2_Topics r))
                   (writeAt fetchResponseTopicV2_writeTo (fetchResponseV2_Topics r)))
          (writeInt32 (fetchResponseV2_ThrottleTime r) wb).
Proof.
  unfold fetchResponseV2_writeTo.
  rewrite (emitted_seq (writeInt32 _) (writeArray _ _)).
  by rewrite emitted_writeInt32.
Qed.

Lemma fetchResponseV2_pairs :
  Pairs (fetchResponseV2_size (messageSet:=messageSet)) fetchResponseV2_writeTo.
Proof.
  intros r wb. rewrite fetchResponseV2_emitted.
  destruct (array_pairs _ _ fetchResponseTopicV2_pairs (fetchResponseV2_Topics r)
              (writeInt32 (fetchResponseV2_ThrottleTime r) wb)) as [Hge Heq].
  split; [lia|]. intros Hle. unfold fetchResponseV2_size.
  rewrite Heq by lia. apply int32_id. unfold MinInt32. lia.
Qed.

End ResponsePairs.

Lemma emptyMessageSet_pairing : MessageSetPairing unit.
Proof. intros m wb. cbn. unfold emitted. split; [lia|]. intros _. lia. Qed.

(** C5 (amended): for every value of each of the six wire types whose
    encoding is at most [MaxInt32] bytes long, [writeTo] emits exactly
    [size()] bytes, whatever the buffer held before; zero-length strings
    and arrays and negative field values are no exception.  The response
    types take the pairing of the embedded message set as given. *)
Theorem writeTo_emits_size_within_int32
    {messageSet : Type} {codec : MessageSet messageSet}
    (pairing : MessageSetPairing messageSet) :
  (forall (r : fetchRequestV2) wb,
     emitted (fetchRequestV2_writeTo r) wb <= MaxInt32 ->
     emitted (fetchRequestV2_writeTo r) wb = fetchRequestV2_size r) /\
  (forall (t : fetchRequestTopicV2) wb,
     emitted (fetchRequestTopicV2_writeTo t) wb <= MaxInt32 ->
     emitted (fetchRequestTopicV2_writeTo t) wb = fetchRequestTopicV2_size t) /\
  (forall (p : fetchRequestPartitionV2) wb,
     emitted (fetchRequestPartitionV2_writeTo p) wb = fetchRequestPartitionV2_size p) /\
  (forall (r : fetchResponseV2 messageSet) wb,
     emitted (fetchResponseV2_writeTo r) wb <= MaxInt32 ->
     emitted (fetchResponseV2_writeTo r) wb = fetchResponseV2_size r) /\
  (forall (t : fetchResponseTopicV2 messageSet) wb,
     emitted (fetchResponseTopicV2_writeTo t) wb <= MaxInt32 ->
     emitted (fetchResponseTopicV2_writeTo t) wb = fetchResponseTopicV2_size t) /\
  (forall (p : fetchResponsePartitionV2 messageSet) wb,
     emitted (fetchResponsePartitionV2_writeTo p) wb <= MaxInt32 ->
     emitted (fetchResponsePartitionV2_writeTo p) wb = fetchResponsePartitionV2_size p).
Proof.
  repeat split; intros x wb.
  - intros Hle. symmetry. by apply fetchRequestV2_pairs.
  - intros Hle. symmetry. by apply fetchRequestTopicV2_pairs.
  - apply fetchRequestPartitionV2_emitted.
  - intros Hle. symmetry. by apply fetchResponseV2_pairs.
  - intros Hle. symmetry. by apply fetchResponseTopicV2_pairs.
  - intros Hle. symmetry. by apply fetchResponsePartitionV2_pairs.
Qed.

(** The pairing at a request with an empty topic name, an empty partition
    list and -1 fields, and at a response over the empty message set. *)
Lemma writeTo_emits_size_within_int32_witness :
  emitted (fetchRequestV2_writeTo exampleRequestV2) [] = fetchRequestV2_size exampleRequestV2 /\
  emitted (fetchResponseV2_writeTo exampleResponseV2) [] = fetchResponseV2_size exampleResponseV2 /\
  fetchRequestV2_size exampleRequestV2 = 50 /\
  fetchResponseV2_size exampleResponseV2 = 44.
Proof.
  destruct (writeTo_emits_size_within_int32 emptyMessageSet_pairing)
    as (Hreq & _ & _ & Hres & _ & _).
  split; [|split; [|split]].
  - apply Hreq. vm_compute. discriminate.
  - apply Hres. vm_compute. discriminate.
  - reflexivity.
  - reflexivity.
Defined.

Lemma int32_idemp z : int32 (int32 z) = int32 z.
Proof. apply int32_id, int32_range. Qed.

Lemma sizes_replicate {A} (size : A -> Z) (x : A) (n : nat) (s : Z) :
  foldl (fun acc y => int32 (acc + size y)) (int32 s) (replicate n x)
  = int32 (s + size x * Z.of_nat n).
Proof.
  revert s. induction n as [|n IH]; intros s; cbn [replicate foldl].
  - f_equal. lia.
  - rewrite int32_add_l, IH. f_equal. lia.
Qed.

Lemma emitted_replicate {A} (writeTo : A -> writeBuffer -> writeBuffer) (k : Z) (x : A)
    (n : nat) wb :
  (forall b, emitted (writeTo x) b = k) ->
  emitted (fun b => foldl (fun acc y => writeTo y acc) b (replicate n x)) wb = k * Z.of_nat n.
Proof.
  intros Hk. revert wb. induction n as [|n IH]; intros wb; cbn [replicate foldl].
  - unfold emitted. lia.
  - rewrite (emitted_seq (writeTo x) (fun b => foldl (fun acc y => writeTo y acc) b (replicate n x))).
    rewrite Hk, IH. lia.
Qed.

Lemma fetchRequestTopicV2_replicate (n : nat) (p : fetchRequestPartitionV2) wb :
  let t := {| fetchRequestTopicV2_TopicName := "";
              fetchRequestTopicV2_Partitions := replicate n p |} in
  emitted (fetchRequestTopicV2_writeTo t) wb = 6 + 16 * Z.of_nat n /\
  fetchRequestTopicV2_size t = int32 (6 + 16 * Z.of_nat n).
Proof.
  intros t. split.
  - rewrite fetchRequestTopicV2_emitted. subst t. cbn [fetchRequestTopicV2_TopicName fetchRequestTopicV2_Partitions].
    rewrite emitted_writeArray.
    rewrite (emitted_replicate _ 16) by (intros; apply fetchRequestPartitionV2_emitted).
    change (len_string "") with 0. lia.
  - unfold fetchRequestTopicV2_size. subst t. cbn [fetchRequestTopicV2_TopicName fetchRequestTopicV2_Partitions].
    rewrite sizeofArray_elements.
    change 4 with (int32 4) at 1. rewrite sizes_replicate.
    change (sizeofString "") with 2.
    rewrite Z.add_comm, int32_add_l. f_equal.
    change (fetchRequestPartitionV2_size p) with 16. lia.
Qed.

(** C5 as stated fails: a topic of 2^27 partitions is written as
    2^31 + 6 bytes, and its [size()], an [int32], is negative. *)
Lemma oversized_topic_size_differs :
  emitted (fetchRequestTopicV2_writeTo oversizedTopicV2) [] = 2147483654 /\
  fetchRequestTopicV2_size oversizedTopicV2 = -2147483642.
Proof.
  unfold oversizedTopicV2.
  destruct (fetchRequestTopicV2_replicate (Z.to_nat 134217728)
              {| fetchRequestPartitionV2_Partition := 0;
                 fetchRequestPartitionV2_FetchOffset := 0;
                 fetchRequestPartitionV2_MaxBytes := 0 |} []) as [Hw Hs].
  rewrite Z2Nat.id in Hw, Hs by lia.
  split; [exact Hw | exact Hs].
Qed.

(** ** Fetch and MultiFetch against any package *)

Section OperationFacts.
Context `{pkg : Package}.

Lemma Fetch_calls c ctx req tr :
  calls (Fetch c ctx req) tr = tr ++ [(FetchRequest_Addr req, Fetch_message c ctx req)].
Proof.
  unfold calls, Fetch, mbind, IO_bind, roundTrip. cbn.
  by destruct (Client_reply _ _ _ _ _) as [err|[res| |]].
Qed.

Lemma Fetch_result c ctx req tr :
  result (Fetch c ctx req) tr
  = match Client_reply c ctx (FetchRequest_Addr req) (Fetch_message c ctx req) tr with
    | RoundTripError err => Returned None (Some (Errorf "kafka.(*Client).Fetch" err))
    | RoundTripMessage (FetchResponseMessage res) => Fetch_response res
    | RoundTripMessage NilFetchResponseMessage => Panicked
    | RoundTripMessage OtherMessage => Panicked
    end.
Proof.
  unfold result, Fetch, mbind, IO_bind, roundTrip. cbn.
  by destruct (Client_reply _ _ _ _ _) as [err|[res| |]].
Qed.

Lemma MultiFetch_topics_nil req :
  MultiFetch_topics req = [] <-> MultiFetchRequest_Requests req = ∅.
Proof.
  unfold MultiFetch_topics.
  split.
  - intros Hnil. apply map_eq_nil in Hnil.
    apply map_to_list_empty_iff, Permutation_nil_r.
    rewrite <- Hnil. symmetry. apply rangeRequests_perm.
  - intros Hempty. rewrite Hempty.
    pose proof (rangeRequests_perm (∅ : gmap string (list FetchPartitionRequest))) as Hperm.
    rewrite map_to_list_empty in Hperm. apply Permutation_nil_r in Hperm.
    by rewrite Hperm.
Qed.

Lemma MultiFetch_empty c ctx req tr :
  MultiFetchRequest_Requests req = ∅ ->
  MultiFetch c ctx req tr
  = (Returned None (Some (Errorf "kafka.(*Client).MultiFetch" ErrNoTopic)), tr).
Proof.
  intros Hempty. apply MultiFetch_topics_nil in Hempty.
  unfold MultiFetch. by rewrite Hempty.
Qed.

Lemma MultiFetch_topics_length req :
  MultiFetchRequest_Requests req ≠ ∅ -> (length (MultiFetch_topics req) =? 0)%nat = false.
Proof.
  intros Hne. apply Nat.eqb_neq. intros Hlen.
  apply Hne, MultiFetch_topics_nil. by apply length_zero_iff_nil.
Qed.

Lemma MultiFetch_calls c ctx req tr :
  MultiFetchRequest_Requests req ≠ ∅ ->
  calls (MultiFetch c ctx req) tr
  = tr ++ [(MultiFetchRequest_Addr req, MultiFetch_message c ctx req)].
Proof.
  intros Hne. unfold calls, MultiFetch. rewrite MultiFetch_topics_length by done.
  unfold mbind, IO_bind, roundTrip. cbn.
  by destruct (Client_reply _ _ _ _ _) as [err|[res| |]].
Qed.

Lemma MultiFetch_result c ctx req tr :
  MultiFetchRequest_Requests req ≠ ∅ ->
  result (MultiFetch c ctx req) tr
  = match Client_reply c ctx (MultiFetchRequest_Addr req) (MultiFetch_message c ctx req) tr with
    | RoundTripError err => Returned None (Some (Errorf "kafka.(*Client).MultiFetch" err))
    | RoundTripMessage (FetchResponseMessage res) => Returned (Some (MultiFetch_response res)) None
    | RoundTripMessage NilFetchResponseMessage => Panicked
    | RoundTripMessage OtherMessage => Panicked
    end.
Proof.
  intros Hne. unfold result, MultiFetch. rewrite MultiFetch_topics_length by done.
  unfold mbind, IO_bind, roundTrip. cbn.
  by destruct (Client_reply _ _ _ _ _) as [err|[res| |]].
Qed.

Lemma Fetch_response_built res topic topics partition partitions :
  elems (Response_Topics res) = topic :: topics ->
  ResponseTopic_Partitions topic = partition :: partitions ->
  exists ret,
    Fetch_response res = Returned (Some ret) None /\
    FetchResponse_Topic ret = ResponseTopic_Topic topic /\
    FetchResponse_Partition ret = ResponsePartition_Partition partition /\
    FetchResponse_Error ret
    = (if ResponsePartition_ErrorCode partition =? 0
       then makeError (Response_ErrorCode res) ""
       else makeError (ResponsePartition_ErrorCode partition) "") /\
    FetchResponse_Records ret
    = match RecordSet_Records (ResponsePartition_RecordSet partition) with
      | None => Some (NewRecordReader [])
      | Some records => Some records
      end.
Proof.
  intros Htopics Hpartitions. unfold Fetch_response.
  rewrite Htopics, Hpartitions. eexists. split; [reflexivity|].
  destruct (ResponsePartition_ErrorCode partition =? 0);
    destruct (RecordSet_Records (ResponsePartition_RecordSet partition)); cbn; done.
Qed.

(** C1: when the reply reaches [Fetch] with a first topic and a first
    partition, the response's [Error] is the mapped partition-level error if
    the partition's code is non-zero, whatever the global code, and the
    mapped global-level error (nil for code 0) if the partition's code is
    zero. *)
Theorem Fetch_error_precedence c ctx req tr res topic topics partition partitions :
  Client_reply c ctx (FetchRequest_Addr req) (Fetch_message c ctx req) tr
    = RoundTripMessage (FetchResponseMessage res) ->
  Response_Topics res = Some (topic :: topics) ->
  ResponseTopic_Partitions topic = partition :: partitions ->
  exists ret,
    result (Fetch c ctx req) tr = Returned (Some ret) None /\
    (ResponsePartition_ErrorCode partition <> 0 ->
     FetchResponse_Error ret = makeError (ResponsePartition_ErrorCode partition) "" /\
     FetchResponse_Error ret = Some (KafkaError (ResponsePartition_ErrorCode partition) "")) /\
    (ResponsePartition_ErrorCode partition = 0 ->
     FetchResponse_Error ret = makeError (Response_ErrorCode res) "") /\
    (ResponsePartition_ErrorCode partition = 0 -> Response_ErrorCode res = 0 ->
     FetchResponse_Error ret = None).
Proof.
  intros Hreply Htopics Hpartitions.
  destruct (Fetch_response_built res topic topics partition partitions)
    as (ret & Hret & _ & _ & Herror & _); [by rewrite Htopics|done|].
  exists ret. rewrite Fetch_result, Hreply. split; [done|].
  rewrite Herror. unfold makeError.
  destruct (Z.eqb_spec (ResponsePartition_ErrorCode partition) 0) as [Hzero|Hnonzero].
  - split; [done|]. split; [done|]. intros _ Hglobal. by rewrite Hglobal.
  - done.
Qed.

(** C3: a reply with zero topics makes [Fetch] return no response and an
    error wrapping [ErrNoTopic]; a reply whose first topic has zero
    partitions, no response and an error wrapping [ErrNoPartition]. *)
Theorem Fetch_rejects_reply_without_topic_or_partition c ctx req tr res :
  Client_reply c ctx (FetchRequest_Addr req) (Fetch_message c ctx req) tr
    = RoundTripMessage (FetchResponseMessage res) ->
  (length (elems (Response_Topics res)) = 0%nat ->
   exists err,
     result (Fetch c ctx req) tr = Returned None (Some err) /\
     err = Errorf "kafka.(*Client).Fetch" ErrNoTopic /\
     errors_Is err ErrNoTopic = true) /\
  (forall topic topics,
     elems (Response_Topics res) = topic :: topics ->
     length (ResponseTopic_Partitions topic) = 0%nat ->
     exists err,
       result (Fetch c ctx req) tr = Returned None (Some err) /\
       err = Errorf "kafka.(*Client).Fetch" ErrNoPartition /\
       errors_Is err ErrNoPartition = true).
Proof.
  intros Hreply. rewrite Fetch_result, Hreply. unfold Fetch_response. split.
  - intros Hlen. apply length_zero_iff_nil in Hlen. rewrite Hlen. by eexists.
  - intros topic topics Htopics Hlen. rewrite Htopics.
    apply length_zero_iff_nil in Hlen. rewrite Hlen. by eexists.
Qed.

(** A successful [Fetch] comes from a reply with a first topic and a first
    partition. *)
Lemma Fetch_success_inv c ctx req tr ret :
  result (Fetch c ctx req) tr = Returned (Some ret) None ->
  exists res topic topics partition partitions,
    Client_reply c ctx (FetchRequest_Addr req) (Fetch_message c ctx req) tr
      = RoundTripMessage (FetchResponseMessage res) /\
    elems (Response_Topics res) = topic :: topics /\
    ResponseTopic_Partitions topic = partition :: partitions /\
    Fetch_response res = Returned (Some ret) None.
Proof.
  rewrite Fetch_result.
  destruct (Client_reply _ _ _ _ _) as [err|[res| |]]; [done| |done|done].
  intros Hres. exists res. revert Hres. unfold Fetch_response.
  destruct (elems (Response_Topics res)) as [|topic topics] eqn:Htopics; [done|].
  destruct (ResponseTopic_Partitions topic) as [|partition partitions] eqn:Hparts; [done|].
  intros Hres. exists topic, topics, partition, partitions.
  rewrite Hparts. by repeat split.
Qed.

(** The entry a topic name ends up with: the one built from the last decoded
    topic carrying that name. *)
Lemma foldl_responses_lookup topics (responses : gmap string (list FetchPartitionResponse)) name :
  foldl (fun acc t =>
           <[ResponseTopic_Topic t :=
               map MultiFetch_partitionResponse (ResponseTopic_Partitions t)]> acc)
        responses topics !! name
  = match last (filter (fun t => ResponseTopic_Topic t = name) topics) with
    | Some t => Some (map MultiFetch_partitionResponse (ResponseTopic_Partitions t))
    | None => responses !! name
    end.
Proof.
  revert responses. induction topics as [|t topics IH]; intros responses; [done|].
  cbn [foldl]. rewrite IH, filter_cons.
  destruct (decide (ResponseTopic_Topic t = name)) as [Heq|Hne].
  - rewrite last_cons.
    destruct (last (filter _ topics)); [done|].
    by rewrite <- Heq, lookup_insert_eq.
  - destruct (last (filter _ topics)); [done|].
    by rewrite lookup_insert_ne.
Qed.

Lemma MultiFetch_responses_lookup topics name :
  MultiFetch_responses topics !! name
  = (fun t => map MultiFetch_partitionResponse (ResponseTopic_Partitions t))
      <$> last (filter (fun t => ResponseTopic_Topic t = name) topics).
Proof.
  unfold MultiFetch_responses. rewrite foldl_responses_lookup.
  by destruct (last _).
Qed.

Lemma last_filter_elem_of {A} (P : A -> Prop) `{!forall x, Decision (P x)} (l : list A) x :
  last (filter P l) = Some x -> x ∈ l /\ P x.
Proof.
  intros Hlast. apply last_Some_elem_of in Hlast.
  by apply list_elem_of_filter in Hlast as [? ?].
Qed.

Lemma last_filter_is_Some {A} (P : A -> Prop) `{!forall x, Decision (P x)} (l : list A) x :
  x ∈ l -> P x -> is_Some (last (filter P l)).
Proof.
  intros Hin HP.
  assert (Hf : x ∈ filter P l) by (by apply list_elem_of_filter).
  destruct (filter P l) as [|y ys] eqn:Hfl; [by apply elem_of_nil in Hf|].
  rewrite <- Hfl. rewrite last_is_Some. by rewrite Hfl.
Qed.

Lemma last_filter_NoDup (topics : list ResponseTopic) t :
  NoDup (map ResponseTopic_Topic topics) -> t ∈ topics ->
  last (filter (fun t' => ResponseTopic_Topic t' = ResponseTopic_Topic t) topics) = Some t.
Proof.
  induction topics as [|a topics IH]; intros Hnodup Hin; [by apply elem_of_nil in Hin|].
  cbn [map] in Hnodup. apply NoDup_cons in Hnodup as [Hfresh Hnodup].
  rewrite filter_cons. apply elem_of_cons in Hin as [->|Hin].
  - rewrite decide_True by done.
    assert (Hnone : filter (fun t' => ResponseTopic_Topic t' = ResponseTopic_Topic a) topics = []).
    { destruct (filter _ topics) as [|y ys] eqn:Hfilter; [done|].
      assert (Hy : y ∈ filter (fun t' => ResponseTopic_Topic t' = ResponseTopic_Topic a) topics)
        by (rewrite Hfilter; apply elem_of_cons; by left).
      apply list_elem_of_filter in Hy as [Hname Hy].
      destruct Hfresh. rewrite <- Hname.
      by apply (list_elem_of_fmap_2 ResponseTopic_Topic). }
    by rewrite Hnone.
  - rewrite decide_False.
    + by apply IH.
    + intros Heq. apply Hfresh. rewrite Heq. by apply (list_elem_of_fmap_2 ResponseTopic_Topic).
Qed.

(** C9 (amended): after a successful [MultiFetch] whose reply has a
    non-nil topic list, [Responses] has an entry under the name of every
    decoded topic; the entry under a name holds the partition responses of
    the last decoded topic with that name, in decoded order; when no name
    occurs twice, every topic's partition responses are under its own
    name. *)
Theorem MultiFetch_responses_last_entry_per_name c ctx req tr res topics :
  MultiFetchRequest_Requests req <> ∅ ->
  Client_reply c ctx (MultiFetchRequest_Addr req) (MultiFetch_message c ctx req) tr
    = RoundTripMessage (FetchResponseMessage res) ->
  Response_Topics res = Some topics ->
  exists ret responses,
    result (MultiFetch c ctx req) tr = Returned (Some ret) None /\
    MultiFetchResponse_Responses ret = Some responses /\
    (forall t, t ∈ topics -> is_Some (responses !! ResponseTopic_Topic t)) /\
    (forall name,
       responses !! name
       = (fun t => map MultiFetch_partitionResponse (ResponseTopic_Partitions t))
           <$> last (filter (fun t => ResponseTopic_Topic t = name) topics)) /\
    (NoDup (map ResponseTopic_Topic topics) ->
     forall t, t ∈ topics ->
       responses !! ResponseTopic_Topic t
       = Some (map MultiFetch_partitionResponse (ResponseTopic_Partitions t))).
Proof.
  intros Hne Hreply Htopics.
  exists (MultiFetch_response res), (MultiFetch_responses topics).
  rewrite MultiFetch_result, Hreply by done.
  split; [done|]. split; [by unfold MultiFetch_response; rewrite Htopics|].
  split; [|split].
  - intros t Hin. rewrite MultiFetch_responses_lookup.
    apply fmap_is_Some. by eapply last_filter_is_Some.
  - apply MultiFetch_responses_lookup.
  - intros Hnodup t Hin. rewrite MultiFetch_responses_lookup.
    by rewrite last_filter_NoDup.
Qed.

(** C4: the [Records] of a successful [Fetch], and of every partition
    entry of a successful [MultiFetch], is non-nil: it is the decoded
    reader when the reply carries one and the empty reader, which has no
    record to read, otherwise.  Every decoded partition of a topic that is
    the last (or the only one) of its name has its entry, at its own
    index, with that reader. *)
Theorem Records_never_nil :
  (forall c ctx req tr ret,
     result (Fetch c ctx req) tr = Returned (Some ret) None ->
     is_Some (FetchResponse_Records ret) /\
     exists res topic topics partition partitions,
       Client_reply c ctx (FetchRequest_Addr req) (Fetch_message c ctx req) tr
         = RoundTripMessage (FetchResponseMessage res) /\
       elems (Response_Topics res) = topic :: topics /\
       ResponseTopic_Partitions topic = partition :: partitions /\
       (RecordSet_Records (ResponsePartition_RecordSet partition) = None ->
        FetchResponse_Records ret = Some (NewRecordReader [])) /\
       (forall records,
          RecordSet_Records (ResponsePartition_RecordSet partition) = Some records ->
          FetchResponse_Records ret = Some records)) /\
  (forall c ctx req tr ret responses name entries entry,
     result (MultiFetch c ctx req) tr = Returned (Some ret) None ->
     MultiFetchResponse_Responses ret = Some responses ->
     responses !! name = Some entries ->
     entry ∈ entries ->
     is_Some (FetchPartitionResponse_Records entry) /\
     exists res topic p,
       Client_reply c ctx (MultiFetchRequest_Addr req) (MultiFetch_message c ctx req) tr
         = RoundTripMessage (FetchResponseMessage res) /\
       topic ∈ elems (Response_Topics res) /\
       ResponseTopic_Topic topic = name /\
       p ∈ ResponseTopic_Partitions topic /\
       entry = MultiFetch_partitionResponse p /\
       (RecordSet_Records (ResponsePartition_RecordSet p) = None ->
        FetchPartitionResponse_Records entry = Some (NewRecordReader [])) /\
       (forall records,
          RecordSet_Records (ResponsePartition_RecordSet p) = Some records ->
          FetchPartitionResponse_Records entry = Some records)) /\
  RecordReader_ReadRecord (NewRecordReader []) = None /\
  (forall c ctx req tr res topics,
     MultiFetchRequest_Requests req <> ∅ ->
     Client_reply c ctx (MultiFetchRequest_Addr req) (MultiFetch_message c ctx req) tr
       = RoundTripMessage (FetchResponseMessage res) ->
     Response_Topics res = Some topics ->
     exists ret responses,
       result (MultiFetch c ctx req) tr = Returned (Some ret) None /\
       MultiFetchResponse_Responses ret = Some responses /\
       forall topic,
         topic ∈ topics ->
         NoDup (map ResponseTopic_Topic topics) \/
           last (filter (fun t => ResponseTopic_Topic t = ResponseTopic_Topic topic) topics)
           = Some topic ->
         exists entries,
           responses !! ResponseTopic_Topic topic = Some entries /\
           length entries = length (ResponseTopic_Partitions topic) /\
           forall i p,
             ResponseTopic_Partitions topic !! i = Some p ->
             exists entry,
               entries !! i = Some entry /\
               is_Some (FetchPartitionResponse_Records entry) /\
               (RecordSet_Records (ResponsePartition_RecordSet p) = None ->
                FetchPartitionResponse_Records entry = Some (NewRecordReader [])) /\
               (forall records,
                  RecordSet_Records (ResponsePartition_RecordSet p) = Some records ->
                  FetchPartitionResponse_Records entry = Some records)).
Proof.
  split; [|split; [|split; [done|]]].
  - intros c ctx req tr ret Hok.
    destruct (Fetch_success_inv _ _ _ _ _ Hok)
      as (res & topic & topics & partition & partitions & Hreply & Htopics & Hparts & Hret).
    destruct (Fetch_response_built res topic topics partition partitions Htopics Hparts)
      as (ret' & Hret' & _ & _ & _ & Hrecords).
    assert (ret' = ret) as -> by congruence.
    split.
    + rewrite Hrecords. by destruct (RecordSet_Records _).
    + exists res, topic, topics, partition, partitions.
      repeat split; try done.
      * intros Hnil. by rewrite Hrecords, Hnil.
      * intros records Hsome. by rewrite Hrecords, Hsome.
  - intros c ctx req tr ret responses name entries entry Hok Hresponses Hlookup Hentry.
    destruct (decide (MultiFetchRequest_Requests req = ∅)) as [Hempty|Hne].
    { unfold result in Hok. by rewrite MultiFetch_empty in Hok. }
    rewrite MultiFetch_result in Hok by done.
    destruct (Client_reply _ _ _ _ _) as [err|[res| |]] eqn:Hreply; [done| |done|done].
    injection Hok as <-. unfold MultiFetch_response in Hresponses. cbn in Hresponses.
    destruct (Response_Topics res) as [topics|] eqn:Htopics; [|done].
    injection Hresponses as <-.
    rewrite MultiFetch_responses_lookup in Hlookup.
    apply fmap_Some in Hlookup as (topic & Hlast & ->).
    apply last_filter_elem_of in Hlast as [Hin Hname].
    apply list_elem_of_fmap in Hentry as (p & -> & Hp).
    split.
    + unfold MultiFetch_partitionResponse. cbn. by destruct (RecordSet_Records _).
    + exists res, topic, p. rewrite Htopics.
      repeat split; try done.
      * intros Hnil. unfold MultiFetch_partitionResponse. cbn. by rewrite Hnil.
      * intros records Hsome. unfold MultiFetch_partitionResponse. cbn. by rewrite Hsome.
  - intros c ctx req tr res topics Hne Hreply Htopics.
    exists (MultiFetch_response res), (MultiFetch_responses topics).
    rewrite MultiFetch_result, Hreply by done.
    split; [done|]. split; [by unfold MultiFetch_response; rewrite Htopics|].
    intros topic Hin Hlast.
    assert (Hlast' : last (filter (fun t => ResponseTopic_Topic t = ResponseTopic_Topic topic)
                             topics) = Some topic).
    { destruct Hlast as [Hnodup|Hlast]; [by apply last_filter_NoDup|done]. }
    exists (map MultiFetch_partitionResponse (ResponseTopic_Partitions topic)).
    split; [by rewrite MultiFetch_responses_lookup, Hlast'|].
    split; [by rewrite length_map|].
    intros i p Hp. exists (MultiFetch_partitionResponse p).
    split; [by rewrite list_lookup_fmap, Hp|].
    unfold MultiFetch_partitionResponse. cbn. split; [|split].
    + by destruct (RecordSet_Records _).
    + by intros ->.
    + by intros records ->.
Qed.

Lemma MultiFetch_topics_entry req name specs :
  MultiFetchRequest_Requests req !! name = Some specs ->
  {| RequestTopic_Topic := name;
     RequestTopic_Partitions := map (MultiFetch_partition req) specs |}
  ∈ MultiFetch_topics req.
Proof.
  intros Hlookup. unfold MultiFetch_topics.
  apply (list_elem_of_fmap_2'
           (fun entry : string * list FetchPartitionRequest =>
              {| RequestTopic_Topic := entry.1;
                 RequestTopic_Partitions := map (MultiFetch_partition req) entry.2 |})
           _ (name, specs)); [|done].
  rewrite (rangeRequests_perm (MultiFetchRequest_Requests req)).
  by apply elem_of_map_to_list.
Qed.

(** C6 (amended): for the partition spec at index [i] of topic [name],
    the wire request carries, at index [i] of a topic named [name], a
    [PartitionMaxBytes] equal to the [int32] conversion of the spec's
    [MaxBytes] when that is non-zero (negative included) and of the
    request's [MaxBytes] when it is zero; a value between [MinInt32] and
    [MaxInt32] is carried unchanged. *)
Theorem MultiFetch_PartitionMaxBytes c ctx req tr name specs i spec :
  MultiFetchRequest_Requests req !! name = Some specs ->
  specs !! i = Some spec ->
  exists wire topic partition,
    calls (MultiFetch c ctx req) tr = tr ++ [(MultiFetchRequest_Addr req, wire)] /\
    topic ∈ Request_Topics wire /\
    RequestTopic_Topic topic = name /\
    RequestTopic_Partitions topic !! i = Some partition /\
    (FetchPartitionRequest_MaxBytes spec <> 0 ->
     RequestPartition_PartitionMaxBytes partition
     = int32 (FetchPartitionRequest_MaxBytes spec) /\
     (MinInt32 <= FetchPartitionRequest_MaxBytes spec <= MaxInt32 ->
      RequestPartition_PartitionMaxBytes partition = FetchPartitionRequest_MaxBytes spec)) /\
    (FetchPartitionRequest_MaxBytes spec = 0 ->
     RequestPartition_PartitionMaxBytes partition
     = int32 (MultiFetchRequest_MaxBytes req) /\
     (MinInt32 <= MultiFetchRequest_MaxBytes req <= MaxInt32 ->
      RequestPartition_PartitionMaxBytes partition = MultiFetchRequest_MaxBytes req)).
Proof.
  intros Hlookup Hspec.
  assert (Hne : MultiFetchRequest_Requests req <> ∅).
  { intros Hempty. by rewrite Hempty, lookup_empty in Hlookup. }
  exists (MultiFetch_message c ctx req),
    {| RequestTopic_Topic := name;
       RequestTopic_Partitions := map (MultiFetch_partition req) specs |},
    (MultiFetch_partition req spec).
  split; [by apply MultiFetch_calls|].
  split; [by apply MultiFetch_topics_entry|].
  split; [done|].
  split; [cbn; by rewrite list_lookup_fmap, Hspec|].
  unfold MultiFetch_partition. cbn. split.
  - intros Hnonzero. apply Z.eqb_neq in Hnonzero. rewrite Hnonzero.
    split; [done|apply int32_id].
  - intros Hzero. rewrite Hzero. cbn. split; [done|apply int32_id].
Qed.

(** C7: the [MaxWaitTime] of the message [Fetch] and [MultiFetch] send is
    [milliseconds] of the minimum of the client's deadline-derived timeout
    and the effective [MaxWait], which is the request's [MaxWait] when
    positive and [defaultMaxWait] otherwise. *)
Theorem MaxWaitTime_is_min_of_deadline_and_maxWait :
  (forall c ctx req tr,
     exists wire,
       calls (Fetch c ctx req) tr = tr ++ [(FetchRequest_Addr req, wire)] /\
       Request_MaxWaitTime wire
       = milliseconds (Z.min (Client_timeout c ctx MaxInt64) (FetchRequest_maxWait req)) /\
       (0 < FetchRequest_MaxWait req -> FetchRequest_maxWait req = FetchRequest_MaxWait req) /\
       (FetchRequest_MaxWait req <= 0 -> FetchRequest_maxWait req = defaultMaxWait)) /\
  (forall c ctx req tr,
     MultiFetchRequest_Requests req <> ∅ ->
     exists wire,
       calls (MultiFetch c ctx req) tr = tr ++ [(MultiFetchRequest_Addr req, wire)] /\
       Request_MaxWaitTime wire
       = milliseconds (Z.min (Client_timeout c ctx MaxInt64) (MultiFetchRequest_maxWait req)) /\
       (0 < MultiFetchRequest_MaxWait req ->
        MultiFetchRequest_maxWait req = MultiFetchRequest_MaxWait req) /\
       (MultiFetchRequest_MaxWait req <= 0 -> MultiFetchRequest_maxWait req = defaultMaxWait)).
Proof.
  split.
  - intros c ctx req tr. exists (Fetch_message c ctx req).
    split; [apply Fetch_calls|]. split.
    + cbn. f_equal.
      destruct (Z.ltb_spec (FetchRequest_maxWait req) (Client_timeout c ctx MaxInt64)); lia.
    + unfold FetchRequest_maxWait.
      destruct (Z.ltb_spec 0 (FetchRequest_MaxWait req)); split; intros; done || lia.
  - intros c ctx req tr Hne. exists (MultiFetch_message c ctx req).
    split; [by apply MultiFetch_calls|]. split.
    + cbn. f_equal.
      destruct (Z.ltb_spec (MultiFetchRequest_maxWait req) (Client_timeout c ctx MaxInt64)); lia.
    + unfold MultiFetchRequest_maxWait.
      destruct (Z.ltb_spec 0 (MultiFetchRequest_MaxWait req)); split; intros; done || lia.
Qed.

(** C2 (amended): a [MultiFetchRequest] whose [Requests] map has no entry
    is rejected with an error wrapping [ErrNoTopic] and no call of the
    transport; any other request, a topic with no partition spec included,
    makes exactly one call. *)
Theorem MultiFetch_rejects_empty_Requests c ctx req tr :
  (MultiFetchRequest_Requests req = ∅ ->
   result (MultiFetch c ctx req) tr
   = Returned None (Some (Errorf "kafka.(*Client).MultiFetch" ErrNoTopic)) /\
   errors_Is (Errorf "kafka.(*Client).MultiFetch" ErrNoTopic) ErrNoTopic = true /\
   calls (MultiFetch c ctx req) tr = tr) /\
  (MultiFetchRequest_Requests req <> ∅ ->
   calls (MultiFetch c ctx req) tr
   = tr ++ [(MultiFetchRequest_Addr req, MultiFetch_message c ctx req)]).
Proof.
  split.
  - intros Hempty. unfold result, calls. by rewrite MultiFetch_empty.
  - apply MultiFetch_calls.
Qed.

Lemma int32_congruent v : (v - int32 v) mod 2 ^ 32 = 0.
Proof.
  unfold_int32.
  pose proof (Z.div_mod (v + 2147483648) 4294967296) as Hdm.
  replace (v - ((v + 2147483648) mod 4294967296 - 2147483648))
    with (((v + 2147483648) / 4294967296) * 4294967296) by lia.
  apply Z_mod_mult.
Qed.

(** C10: the message [Fetch] and [MultiFetch] send carries the [int32]
    conversions of the request's [MinBytes] and [MaxBytes]: values in
    [MinInt32, MaxInt32] congruent to them modulo 2^32.  The call goes on
    to the transport whatever the values; for [MaxBytes] = 2^31 the wire
    value is -2^31, neither the value supplied nor a clamped one. *)
Theorem MinBytes_MaxBytes_narrowed :
  (forall c ctx req tr,
     exists wire,
       calls (Fetch c ctx req) tr = tr ++ [(FetchRequest_Addr req, wire)] /\
       Request_MinBytes wire = int32 (FetchRequest_MinBytes req) /\
       Request_MaxBytes wire = int32 (FetchRequest_MaxBytes req)) /\
  (forall c ctx req tr,
     MultiFetchRequest_Requests req <> ∅ ->
     exists wire,
       calls (MultiFetch c ctx req) tr = tr ++ [(MultiFetchRequest_Addr req, wire)] /\
       Request_MinBytes wire = int32 (MultiFetchRequest_MinBytes req) /\
       Request_MaxBytes wire = int32 (MultiFetchRequest_MaxBytes req)) /\
  (forall v, MinInt32 <= int32 v <= MaxInt32 /\ (v - int32 v) mod 2 ^ 32 = 0) /\
  (forall v, MinInt32 <= v <= MaxInt32 -> int32 v = v) /\
  (forall c ctx tr,
     exists wire,
       calls (Fetch c ctx oversizedFetchRequest) tr
       = tr ++ [(FetchRequest_Addr oversizedFetchRequest, wire)] /\
       2 ^ 31 <= Z.abs (FetchRequest_MaxBytes oversizedFetchRequest) /\
       Request_MaxBytes wire = -2147483648 /\
       Request_MaxBytes wire <> FetchRequest_MaxBytes oversizedFetchRequest /\
       Request_MaxBytes wire <> MaxInt32).
Proof.
  split; [|split; [|split; [|split]]].
  - intros c ctx req tr. exists (Fetch_message c ctx req).
    split; [apply Fetch_calls|done].
  - intros c ctx req tr Hne. exists (MultiFetch_message c ctx req).
    split; [by apply MultiFetch_calls|done].
  - intros v. split; [apply int32_range|apply int32_congruent].
  - apply int32_id.
  - intros c ctx tr. exists (Fetch_message c ctx oversizedFetchRequest).
    split; [apply Fetch_calls|]. cbn. by repeat split.
Qed.

End OperationFacts.

(** ** Fetch and MultiFetch against the mock package *)

Lemma request_two_topics_nonempty : MultiFetchRequest_Requests request_two_topics <> ∅.
Proof. intros Hempty. apply (f_equal (fun m => m !! "a")) in Hempty. vm_compute in Hempty. discriminate. Qed.

Lemma request_topic_without_partitions_nonempty :
  MultiFetchRequest_Requests request_topic_without_partitions <> ∅.
Proof. intros Hempty. apply (f_equal (fun m => m !! "a")) in Hempty. vm_compute in Hempty. discriminate. Qed.

(** A reply with global code 6 and partition code 1: the partition's error wins. *)
Lemma Fetch_error_precedence_witness :
  exists ret,
    result (mockFetch (replyBroker reply_both_errors) exampleFetchRequest) []
    = Returned (Some ret) None /\
    FetchResponse_Error ret = Some (KafkaError 1 "").
Proof.
  destruct (Fetch_error_precedence (pkg:=mockPackage) (replyBroker reply_both_errors) tt
              exampleFetchRequest [] reply_both_errors _ _ _ _ eq_refl eq_refl eq_refl)
    as (ret & Hret & Hpartition & _).
  exists ret. split; [exact Hret|]. apply Hpartition. cbn. discriminate.
Defined.

(** A reply with no topic, and one whose topic has no partition. *)
Lemma Fetch_rejects_reply_without_topic_or_partition_witness :
  result (mockFetch (replyBroker reply_no_topic) exampleFetchRequest) []
  = Returned None (Some (Errorf "kafka.(*Client).Fetch" ErrNoTopic)) /\
  result (mockFetch (replyBroker reply_no_partition) exampleFetchRequest) []
  = Returned None (Some (Errorf "kafka.(*Client).Fetch" ErrNoPartition)).
Proof.
  split.
  - destruct (proj1 (Fetch_rejects_reply_without_topic_or_partition (pkg:=mockPackage)
                       (replyBroker reply_no_topic) tt exampleFetchRequest [] reply_no_topic
                       eq_refl) eq_refl) as (err & Hresult & -> & _).
    exact Hresult.
  - destruct (proj2 (Fetch_rejects_reply_without_topic_or_partition (pkg:=mockPackage)
                       (replyBroker reply_no_partition) tt exampleFetchRequest []
                       reply_no_partition eq_refl) _ _ eq_refl eq_refl)
      as (err & Hresult & -> & _).
    exact Hresult.
Defined.

(** Replies that carry no record reader. *)
Lemma Records_never_nil_witness :
  (exists ret,
     result (mockFetch (replyBroker reply_both_errors) exampleFetchRequest) []
     = Returned (Some ret) None /\
     is_Some (FetchResponse_Records ret)) /\
  (exists ret responses entries,
     result (mockMultiFetch (replyBroker reply_two_topics) request_two_topics) []
     = Returned (Some ret) None /\
     MultiFetchResponse_Responses ret = Some responses /\
     responses !! "b" = Some entries /\
     forall entry, entry ∈ entries -> is_Some (FetchPartitionResponse_Records entry)) /\
  (exists ret responses entries entry,
     result (mockMultiFetch (replyBroker reply_two_topics) request_two_topics) []
     = Returned (Some ret) None /\
     MultiFetchResponse_Responses ret = Some responses /\
     responses !! "b" = Some entries /\
     length entries = 1%nat /\
     entries !! 0%nat = Some entry /\
     FetchPartitionResponse_Records entry = Some (NewRecordReader [])).
Proof.
  split; [|split].
  - eexists. split; [vm_compute; reflexivity|].
    eapply (proj1 (Records_never_nil (pkg:=mockPackage)) (replyBroker reply_both_errors) tt
              exampleFetchRequest []).
    vm_compute. reflexivity.
  - eexists. eexists. eexists.
    split; [vm_compute; reflexivity|]. split; [reflexivity|]. split; [vm_compute; reflexivity|].
    intros entry Hentry.
    eapply (proj1 (proj2 (Records_never_nil (pkg:=mockPackage)))
              (replyBroker reply_two_topics) tt
              request_two_topics [] _ _ "b" _ entry); [| |  | exact Hentry].
    + vm_compute. reflexivity.
    + reflexivity.
    + vm_compute. reflexivity.
  - destruct (proj2 (proj2 (proj2 (Records_never_nil (pkg:=mockPackage))))
                (replyBroker reply_two_topics) tt request_two_topics [] reply_two_topics _
                request_two_topics_nonempty eq_refl eq_refl)
      as (ret & responses & Hret & Hresponses & Hentries).
    destruct (Hentries {| ResponseTopic_Topic := "b";
                          ResponseTopic_Partitions := [ examplePartition 1 3 None ] |})
      as (entries & Hlookup & Hlength & Hpartitions).
    { apply elem_of_cons. right. apply elem_of_cons. by left. }
    { right. reflexivity. }
    destruct (Hpartitions 0%nat (examplePartition 1 3 None) eq_refl)
      as (entry & Hentry & _ & Hnil & _).
    exists ret, responses, entries, entry.
    repeat split; try done. by apply Hnil.
Defined.


(** An empty request makes no call; a request for two topics makes one. *)
Lemma MultiFetch_rejects_empty_Requests_witness :
  result (mockMultiFetch (replyBroker reply_two_topics) request_no_topic) []
  = Returned None (Some (Errorf "kafka.(*Client).MultiFetch" ErrNoTopic)) /\
  calls (mockMultiFetch (replyBroker reply_two_topics) request_no_topic) [] = [] /\
  length (calls (mockMultiFetch (replyBroker reply_two_topics) request_two_topics) []) = 1%nat.
Proof.
  destruct (MultiFetch_rejects_empty_Requests (pkg:=mockPackage)
              (replyBroker reply_two_topics) tt request_no_topic []) as [Hempty _].
  destruct (MultiFetch_rejects_empty_Requests (pkg:=mockPackage)
              (replyBroker reply_two_topics) tt request_two_topics []) as [_ Hsent].
  split; [|split].
  - apply Hempty. reflexivity.
  - apply Hempty. reflexivity.
  - unfold mockMultiFetch. rewrite Hsent by apply request_two_topics_nonempty. reflexivity.
Defined.

(** C2 as stated fails: a request whose only topic has no partition spec
    is not rejected; it is sent, and the call returns a response. *)
Lemma MultiFetch_sends_topic_without_partitions :
  map_to_list (MultiFetchRequest_Requests request_topic_without_partitions) = [("a", [])] /\
  result (mockMultiFetch (replyBroker reply_no_topic) request_topic_without_partitions) []
  = Returned (Some {| MultiFetchResponse_Throttle := 0;
                      MultiFetchResponse_Responses := Some ∅;
                      MultiFetchResponse_Error := None |}) None /\
  sentPartitionMaxBytes
    (calls (mockMultiFetch (replyBroker reply_no_topic) request_topic_without_partitions) [])
  = [[("a", [])]].
Proof. split; [|split]; vm_compute; reflexivity. Qed.

(** A spec with [MaxBytes] 0 takes the request's 1048576. *)
Lemma MultiFetch_PartitionMaxBytes_witness :
  exists wire topic partition,
    calls (mockMultiFetch (replyBroker reply_two_topics) request_two_topics) []
    = [("broker:9092", wire)] /\
    topic ∈ Request_Topics wire /\
    RequestTopic_Topic topic = "a" /\
    RequestTopic_Partitions topic !! 0%nat = Some partition /\
    RequestPartition_PartitionMaxBytes partition = 1048576.
Proof.
  destruct (MultiFetch_PartitionMaxBytes (pkg:=mockPackage) (replyBroker reply_two_topics) tt
              request_two_topics [] "a" [exampleSpec 0 0 0] 0 (exampleSpec 0 0 0))
    as (wire & topic & partition & Hcalls & Hin & Hname & Hpartition & _ & Hzero).
  - vm_compute. reflexivity.
  - reflexivity.
  - exists wire, topic, partition. repeat split; try done.
    apply Hzero; [reflexivity|]. vm_compute. split; discriminate.
Defined.

(** C6 as stated fails: a spec with [MaxBytes] -1 is sent with
    [PartitionMaxBytes] -1, not with the request's 1048576. *)
Lemma MultiFetch_negative_MaxBytes_kept :
  map_to_list (MultiFetchRequest_Requests request_negative_MaxBytes)
  = [("a", [exampleSpec 0 0 (-1)])] /\
  MultiFetchRequest_MaxBytes request_negative_MaxBytes = 1048576 /\
  sentPartitionMaxBytes
    (calls (mockMultiFetch (replyBroker reply_no_topic) request_negative_MaxBytes) [])
  = [[("a", [-1])]].
Proof. split; [|split]; vm_compute; reflexivity. Qed.

(** With no deadline, a [MaxWait] of 250ms is sent as 250 and an unset one
    as the default's 500. *)
Lemma MaxWaitTime_is_min_of_deadline_and_maxWait_witness :
  map (fun call : Call => Request_MaxWaitTime call.2)
      (calls (mockFetch (replyBroker reply_no_topic) exampleFetchRequest) []) = [250] /\
  map (fun call : Call => Request_MaxWaitTime call.2)
      (calls (mockMultiFetch (replyBroker reply_two_topics) request_two_topics) []) = [500].
Proof.
  destruct (MaxWaitTime_is_min_of_deadline_and_maxWait (pkg:=mockPackage)) as [Hfetch Hmulti].
  destruct (Hfetch (replyBroker reply_no_topic) tt exampleFetchRequest [])
    as (wire & Hcalls & Hwait & Hpos & _).
  destruct (Hmulti (replyBroker reply_two_topics) tt request_two_topics []
              request_two_topics_nonempty) as (wire' & Hcalls' & Hwait' & _ & Hdefault).
  split.
  - unfold mockFetch. rewrite Hcalls. cbn [app map snd]. rewrite Hwait, Hpos by reflexivity.
    reflexivity.
  - unfold mockMultiFetch. rewrite Hcalls'. cbn [app map snd].
    rewrite Hwait', Hdefault by (cbn; lia). reflexivity.
Defined.

(** A reply about topics a and b. *)
Lemma MultiFetch_responses_last_entry_per_name_witness :
  exists ret responses,
    result (mockMultiFetch (replyBroker reply_two_topics) request_two_topics) []
    = Returned (Some ret) None /\
    MultiFetchResponse_Responses ret = Some responses /\
    responses !! "a" = Some [MultiFetch_partitionResponse (examplePartition 0 0 None)] /\
    responses !! "b" = Some [MultiFetch_partitionResponse (examplePartition 1 3 None)].
Proof.
  destruct (MultiFetch_responses_last_entry_per_name (pkg:=mockPackage)
              (replyBroker reply_two_topics) tt request_two_topics [] reply_two_topics _
              request_two_topics_nonempty eq_refl eq_refl)
    as (ret & responses & Hret & Hresponses & _ & Hlast & _).
  exists ret, responses. split; [exact Hret|]. split; [exact Hresponses|].
  split; rewrite Hlast; reflexivity.
Defined.

(** C9 as stated fails: of two decoded entries for topic a, the entry for
    a holds the second's partition responses only; the first's are
    replaced. *)
Lemma MultiFetch_duplicate_topic_replaced :
  elems (Response_Topics reply_duplicate_topic)
  = [ {| ResponseTopic_Topic := "a";
         ResponseTopic_Partitions := [ examplePartition 0 0 None ] |};
      {| ResponseTopic_Topic := "a";
         ResponseTopic_Partitions := [ examplePartition 1 0 None ] |} ] /\
  exists ret responses,
    result (mockMultiFetch (replyBroker reply_duplicate_topic) request_two_topics) []
    = Returned (Some ret) None /\
    MultiFetchResponse_Responses ret = Some responses /\
    responses !! "a" = Some [MultiFetch_partitionResponse (examplePartition 1 0 None)].
Proof.
  split; [reflexivity|]. eexists. eexists.
  split; [vm_compute; reflexivity|]. split; [reflexivity|]. vm_compute. reflexivity.
Qed.

(** Values that fit are sent unchanged. *)
Lemma MinBytes_MaxBytes_narrowed_witness :
  map (fun call : Call => (Request_MinBytes call.2, Request_MaxBytes call.2))
      (calls (mockMultiFetch (replyBroker reply_two_topics) request_two_topics) [])
  = [(1, 1048576)] /\
  int32 2147483647 = 2147483647.
Proof.
  destruct (MinBytes_MaxBytes_narrowed (pkg:=mockPackage)) as (_ & Hmulti & _ & Hid & _).
  destruct (Hmulti (replyBroker reply_two_topics) tt request_two_topics []
              request_two_topics_nonempty) as (wire & Hcalls & Hmin & Hmax).
  split.
  - unfold mockMultiFetch. rewrite Hcalls. cbn [app map snd]. rewrite Hmin, Hmax. reflexivity.
  - apply Hid. vm_compute. split; discriminate.
Defined.

(** C8: the response's [Topic] and [Partition] are those of the reply, not
    those of the request: a reply about topic other, partition 7 to a
    request for topic events, partition 0 is returned as a success. *)
Theorem Fetch_returns_reply_topic_and_partition :
  FetchRequest_Topic exampleFetchRequest = "events" /\
  FetchRequest_Partition exampleFetchRequest = 0 /\
  exists ret,
    result (mockFetch (replyBroker reply_other_topic) exampleFetchRequest) []
    = Returned (Some ret) None /\
    FetchResponse_Topic ret = "other" /\
    FetchResponse_Partition ret = 7.
Proof.
  split; [reflexivity|]. split; [reflexivity|].
  eexists. split; [vm_compute; reflexivity|]. split; reflexivity.
Qed.

(** ** More on the wire codec *)

Lemma int32_add_r a b : int32 (a + int32 b) = int32 (a + b).
Proof. by rewrite Z.add_comm, int32_add_l, Z.add_comm. Qed.

Section ArrayLayout.
Context {A : Type} (size : A -> Z) (writeTo : A -> writeBuffer -> writeBuffer).

Lemma elements_append xs wb :
  (forall x b, writeTo x b = b ++ writeTo x []) ->
  foldl (fun acc x => writeTo x acc) wb xs
  = wb ++ foldl (fun acc x => writeTo x acc) [] xs.
Proof.
  intros Happ. revert wb. induction xs as [|x xs IH]; intros wb; cbn [foldl].
  - by rewrite app_nil_r.
  - rewrite (IH (writeTo x wb)), (IH (writeTo x [])), (Happ x wb). by rewrite app_assoc.
Qed.

Lemma writeArray_append xs wb :
  (forall x b, writeTo x b = b ++ writeTo x []) ->
  writeArray (length xs) (writeAt writeTo xs) wb
  = wb ++ writeArray (length xs) (writeAt writeTo xs) [].
Proof.
  intros Happ. rewrite !writeArray_elements.
  rewrite (elements_append xs (writeInt32 _ wb)), (elements_append xs (writeInt32 _ [])) by done.
  unfold writeInt32. cbn [app]. by rewrite app_assoc.
Qed.

Lemma emitted_elements_sum (g : A -> Z) xs wb :
  (forall x b, emitted (writeTo x) b = g x) ->
  emitted (fun b => foldl (fun acc x => writeTo x acc) b xs) wb
  = foldr (fun x acc => g x + acc) 0 xs.
Proof.
  intros Hg. revert wb. induction xs as [|x xs IH]; intros wb; cbn [foldl foldr].
  - unfold emitted. lia.
  - rewrite (emitted_seq (writeTo x) (fun b => foldl (fun acc y => writeTo y acc) b xs)).
    by rewrite Hg, IH.
Qed.

Lemma sizes_congruent (g : A -> Z) xs s :
  (forall x, size x = int32 (g x)) ->
  foldl (fun acc x => int32 (acc + size x)) (int32 s) xs
  = int32 (s + foldr (fun x acc => g x + acc) 0 xs).
Proof.
  intros Hg. revert s. induction xs as [|x xs IH]; intros s; cbn [foldl foldr].
  - f_equal. lia.
  - rewrite Hg, int32_add_l, int32_add_r, IH. f_equal. lia.
Qed.

End ArrayLayout.

Lemma foldr_const {A} (k : Z) (xs : list A) :
  foldr (fun _ acc => k + acc) 0 xs = k * Z.of_nat (length xs).
Proof. induction xs as [|x xs IH]; cbn [foldr length]; [lia|]. rewrite IH. lia. Qed.

Lemma writeString_append s wb : writeString s wb = wb ++ writeString s [].
Proof. unfold writeString, writeInt16. cbn [app]. by rewrite app_assoc. Qed.

Lemma fetchRequestPartitionV2_append p wb :
  fetchRequestPartitionV2_writeTo p wb = wb ++ fetchRequestPartitionV2_writeTo p [].
Proof.
  unfold fetchRequestPartitionV2_writeTo, writeInt32, writeInt64. cbn [app].
  by rewrite <- !app_assoc.
Qed.

Lemma fetchRequestTopicV2_append t wb :
  fetchRequestTopicV2_writeTo t wb = wb ++ fetchRequestTopicV2_writeTo t [].
Proof.
  unfold fetchRequestTopicV2_writeTo.
  rewrite (writeArray_append _ _ (writeString _ wb)) by apply fetchRequestPartitionV2_append.
  rewrite (writeArray_append _ _ (writeString _ [])) by apply fetchRequestPartitionV2_append.
  rewrite (writeString_append _ wb). by rewrite app_assoc.
Qed.

Lemma fetchRequestV2_append r wb :
  fetchRequestV2_writeTo r wb = wb ++ fetchRequestV2_writeTo r [].
Proof.
  unfold fetchRequestV2_writeTo.
  rewrite (writeArray_append _ _ (writeInt32 _ (writeInt32 _ (writeInt32 _ wb))))
    by apply fetchRequestTopicV2_append.
  rewrite (writeArray_append _ _ (writeInt32 _ (writeInt32 _ (writeInt32 _ []))))
    by apply fetchRequestTopicV2_append.
  unfold writeInt32. cbn [app]. by rewrite <- !app_assoc.
Qed.

(** X1: [writeTo] of the three request types only appends: the buffer it
    is given is a prefix of the buffer it leaves, and the bytes added do
    not depend on it; two requests written in a row are the first's bytes
    followed by the second's. *)
Theorem request_writeTo_appends :
  (forall (p : fetchRequestPartitionV2) wb,
     fetchRequestPartitionV2_writeTo p wb = wb ++ fetchRequestPartitionV2_writeTo p []) /\
  (forall (t : fetchRequestTopicV2) wb,
     fetchRequestTopicV2_writeTo t wb = wb ++ fetchRequestTopicV2_writeTo t []) /\
  (forall (r : fetchRequestV2) wb,
     fetchRequestV2_writeTo r wb = wb ++ fetchRequestV2_writeTo r []) /\
  (forall (r1 r2 : fetchRequestV2) wb,
     fetchRequestV2_writeTo r2 (fetchRequestV2_writeTo r1 wb)
     = wb ++ fetchRequestV2_writeTo r1 [] ++ fetchRequestV2_writeTo r2 []).
Proof.
  split; [apply fetchRequestPartitionV2_append|].
  split; [apply fetchRequestTopicV2_append|].
  split; [apply fetchRequestV2_append|].
  intros r1 r2 wb.
  rewrite (fetchRequestV2_append r2), (fetchRequestV2_append r1 wb). by rewrite app_assoc.
Qed.

Lemma fetchRequestTopicV2_length t wb :
  emitted (fetchRequestTopicV2_writeTo t) wb
  = 6 + len_string (fetchRequestTopicV2_TopicName t)
    + 16 * Z.of_nat (length (fetchRequestTopicV2_Partitions t)).
Proof.
  rewrite fetchRequestTopicV2_emitted, emitted_writeArray.
  rewrite (emitted_elements_sum _ (fun _ => 16)) by apply fetchRequestPartitionV2_emitted.
  rewrite foldr_const. lia.
Qed.

(** X2: a topic is written as 6 bytes plus its name plus 16 bytes per
    partition, and a request as 16 bytes plus its topics, whatever the
    values of the integer fields and whatever the buffer held. *)
Theorem request_encoding_length :
  (forall (t : fetchRequestTopicV2) wb,
     emitted (fetchRequestTopicV2_writeTo t) wb
     = 6 + len_string (fetchRequestTopicV2_TopicName t)
       + 16 * Z.of_nat (length (fetchRequestTopicV2_Partitions t))) /\
  (forall (r : fetchRequestV2) wb,
     emitted (fetchRequestV2_writeTo r) wb
     = 16 + foldr (fun t acc =>
                     6 + len_string (fetchRequestTopicV2_TopicName t)
                     + 16 * Z.of_nat (length (fetchRequestTopicV2_Partitions t)) + acc)
                  0 (fetchRequestV2_Topics r)).
Proof.
  split; [apply fetchRequestTopicV2_length|].
  intros r wb. rewrite fetchRequestV2_emitted, emitted_writeArray.
  rewrite (emitted_elements_sum _
             (fun t => 6 + len_string (fetchRequestTopicV2_TopicName t)
                       + 16 * Z.of_nat (length (fetchRequestTopicV2_Partitions t))))
    by apply fetchRequestTopicV2_length.
  lia.
Qed.

Lemma fetchRequestTopicV2_size_congruent t wb :
  fetchRequestTopicV2_size t = int32 (emitted (fetchRequestTopicV2_writeTo t) wb).
Proof.
  rewrite fetchRequestTopicV2_length. unfold fetchRequestTopicV2_size, sizeofString.
  rewrite sizeofArray_elements. change 4 with (int32 4) at 1.
  rewrite (sizes_congruent _ (fun _ => 16)) by (intros; symmetry; by apply int32_id).
  rewrite foldr_const.
  rewrite (int32_add_r 2 (len_string (fetchRequestTopicV2_TopicName t))).
  rewrite int32_add_l, int32_add_r. f_equal. lia.
Qed.

(** X3: for the three request types [size()] is always the [int32]
    conversion of the number of bytes [writeTo] emits, also beyond
    [MaxInt32]; it is never outside the [int32] range. *)
Theorem request_size_is_int32_of_length :
  (forall (p : fetchRequestPartitionV2) wb,
     fetchRequestPartitionV2_size p = int32 (emitted (fetchRequestPartitionV2_writeTo p) wb)) /\
  (forall (t : fetchRequestTopicV2) wb,
     fetchRequestTopicV2_size t = int32 (emitted (fetchRequestTopicV2_writeTo t) wb)) /\
  (forall (r : fetchRequestV2) wb,
     fetchRequestV2_size r = int32 (emitted (fetchRequestV2_writeTo r) wb)) /\
  (forall (r : fetchRequestV2), MinInt32 <= fetchRequestV2_size r <= MaxInt32).
Proof.
  split; [|split; [|split]].
  - intros p wb. by rewrite fetchRequestPartitionV2_emitted.
  - apply fetchRequestTopicV2_size_congruent.
  - intros r wb. rewrite fetchRequestV2_emitted, emitted_writeArray.
    rewrite (emitted_elements_sum _
               (fun t => 6 + len_string (fetchRequestTopicV2_TopicName t)
                         + 16 * Z.of_nat (length (fetchRequestTopicV2_Partitions t))))
      by apply fetchRequestTopicV2_length.
    unfold fetchRequestV2_size. rewrite sizeofArray_elements. change 4 with (int32 4) at 4.
    rewrite (sizes_congruent _
               (fun t => 6 + len_string (fetchRequestTopicV2_TopicName t)
                         + 16 * Z.of_nat (length (fetchRequestTopicV2_Partitions t)))).
    + rewrite int32_add_r. f_equal; lia.
    + intros t. rewrite (fetchRequestTopicV2_size_congruent t []).
      by rewrite fetchRequestTopicV2_length.
  - intros r. apply int32_range.
Qed.

Section ResponseLayout.
Context {messageSet : Type} {codec : MessageSet messageSet}.
Hypothesis messageSet_appends :
  forall (m : messageSet) wb, messageSet_writeTo m wb = wb ++ messageSet_writeTo m [].

Lemma fetchResponsePartitionV2_append (p : fetchResponsePartitionV2 messageSet) wb :
  fetchResponsePartitionV2_writeTo p wb = wb ++ fetchResponsePartitionV2_writeTo p [].
Proof.
  unfold fetchResponsePartitionV2_writeTo.
  rewrite (messageSet_appends _ (writeInt32 _ (writeInt64 _ (writeInt16 _ (writeInt32 _ wb))))).
  rewrite (messageSet_appends _ (writeInt32 _ (writeInt64 _ (writeInt16 _ (writeInt32 _ []))))).
  unfold writeInt32, writeInt16, writeInt64. cbn [app]. by rewrite <- !app_assoc.
Qed.

Lemma fetchResponseTopicV2_append (t : fetchResponseTopicV2 messageSet) wb :
  fetchResponseTopicV2_writeTo t wb = wb ++ fetchResponseTopicV2_writeTo t [].
Proof.
  unfold fetchResponseTopicV2_writeTo.
  rewrite (writeArray_append _ _ (writeString _ wb)) by apply fetchResponsePartitionV2_append.
  rewrite (writeArray_append _ _ (writeString _ [])) by apply fetchResponsePartitionV2_append.
  rewrite (writeString_append _ wb). by rewrite app_assoc.
Qed.

Lemma fetchResponseV2_append (r : fetchResponseV2 messageSet) wb :
  fetchResponseV2_writeTo r wb = wb ++ fetchResponseV2_writeTo r [].
Proof.
  unfold fetchResponseV2_writeTo.
  rewrite (writeArray_append _ _ (writeInt32 _ wb)) by apply fetchResponseTopicV2_append.
  rewrite (writeArray_append _ _ (writeInt32 _ [])) by apply fetchResponseTopicV2_append.
  unfold writeInt32. cbn [app]. by rewrite <- !app_assoc.
Qed.

End ResponseLayout.

Lemma elements_concat {A} (writeTo : A -> writeBuffer -> writeBuffer) (xs : list A) :
  (forall x b, writeTo x b = b ++ writeTo x []) ->
  foldl (fun acc x => writeTo x acc) [] xs = concat (map (fun x => writeTo x []) xs).
Proof.
  intros Happ. induction xs as [|x xs IH]; [done|].
  cbn [foldl map concat]. by rewrite (elements_append writeTo xs (writeTo x [])), IH.
Qed.

Lemma writeArray_layout {A} (writeTo : A -> writeBuffer -> writeBuffer) (xs : list A) wb :
  (forall x b, writeTo x b = b ++ writeTo x []) ->
  writeArray (length xs) (writeAt writeTo xs) wb
  = wb ++ bigEndian 4 (int32 (Z.of_nat (length xs)))
       ++ concat (map (fun x => writeTo x []) xs).
Proof.
  intros Happ. rewrite writeArray_elements, elements_append by done.
  rewrite elements_concat by done. unfold writeInt32. by rewrite <- app_assoc.
Qed.

(** X4: when the message set's [writeTo] only appends, so does [writeTo]
    of the three response types, in this layout: a partition is its four
    fixed fields, 18 bytes, followed by its message set; a topic is its
    name, the partition count and the partitions in order; a response is
    the throttle time, the topic count and the topics in order. *)
Theorem response_writeTo_appends {messageSet : Type} {codec : MessageSet messageSet} :
  (forall (m : messageSet) wb, messageSet_writeTo m wb = wb ++ messageSet_writeTo m []) ->
  (forall (p : fetchResponsePartitionV2 messageSet) wb,
     fetchResponsePartitionV2_writeTo p wb = wb ++ fetchResponsePartitionV2_writeTo p [] /\
     emitted (fetchResponsePartitionV2_writeTo p) wb
     = 18 + Z.of_nat (length (messageSet_writeTo (fetchResponsePartitionV2_MessageSet p) [])) /\
     fetchResponsePartitionV2_writeTo p wb
     = wb ++ bigEndian 4 (fetchResponsePartitionV2_Partition p)
          ++ bigEndian 2 (fetchResponsePartitionV2_ErrorCode p)
          ++ bigEndian 8 (fetchResponsePartitionV2_HighwaterMarkOffset p)
          ++ bigEndian 4 (fetchResponsePartitionV2_MessageSetSize p)
          ++ messageSet_writeTo (fetchResponsePartitionV2_MessageSet p) [] /\
     length (bigEndian 4 (fetchResponsePartitionV2_Partition p)
             ++ bigEndian 2 (fetchResponsePartitionV2_ErrorCode p)
             ++ bigEndian 8 (fetchResponsePartitionV2_HighwaterMarkOffset p)
             ++ bigEndian 4 (fetchResponsePartitionV2_MessageSetSize p)) = 18%nat) /\
  (forall (t : fetchResponseTopicV2 messageSet) wb,
     fetchResponseTopicV2_writeTo t wb = wb ++ fetchResponseTopicV2_writeTo t [] /\
     fetchResponseTopicV2_writeTo t wb
     = wb ++ writeString (fetchResponseTopicV2_TopicName t) []
          ++ bigEndian 4 (int32 (Z.of_nat (length (fetchResponseTopicV2_Partitions t))))
          ++ concat (map (fun p => fetchResponsePartitionV2_writeTo p [])
                         (fetchResponseTopicV2_Partitions t))) /\
  (forall (r : fetchResponseV2 messageSet) wb,
     fetchResponseV2_writeTo r wb = wb ++ fetchResponseV2_writeTo r [] /\
     fetchResponseV2_writeTo r wb
     = wb ++ bigEndian 4 (fetchResponseV2_ThrottleTime r)
          ++ bigEndian 4 (int32 (Z.of_nat (length (fetchResponseV2_Topics r))))
          ++ concat (map (fun t => fetchResponseTopicV2_writeTo t [])
                         (fetchResponseV2_Topics r))).
Proof.
  intros Happ. split; [|split].
  - intros p wb. split; [by apply fetchResponsePartitionV2_append|]. split; [|split].
    + rewrite fetchResponsePartitionV2_emitted. f_equal.
      unfold emitted. rewrite Happ, length_app. lia.
    + unfold fetchResponsePartitionV2_writeTo. rewrite Happ.
      unfold writeInt32, writeInt16, writeInt64. by rewrite <- !app_assoc.
    + by rewrite !length_app, !length_bigEndian.
  - intros t wb. split; [by apply fetchResponseTopicV2_append|].
    unfold fetchResponseTopicV2_writeTo.
    rewrite writeArray_layout by (by apply fetchResponsePartitionV2_append).
    rewrite (writeString_append _ wb). by rewrite <- app_assoc.
  - intros r wb. split; [by apply fetchResponseV2_append|].
    unfold fetchResponseV2_writeTo.
    rewrite writeArray_layout by (by apply fetchResponseTopicV2_append).
    unfold writeInt32. by rewrite <- app_assoc.
Qed.

(** A partition whose message set is three bytes, written after two
    bytes: the fixed fields come first, the message set last. *)
Lemma response_writeTo_appends_witness :
  fetchResponsePartitionV2_writeTo exampleRawPartitionV2 [255; 254]
  = [255; 254] ++ [0; 0; 0; 1] ++ [0; 0] ++ [0; 0; 0; 0; 0; 0; 0; 100] ++ [0; 0; 0; 3]
    ++ [7; 8; 9] /\
  fetchResponseV2_writeTo exampleResponseV2 [1; 2; 3]
  = [1; 2; 3] ++ fetchResponseV2_writeTo exampleResponseV2 [].
Proof.
  assert (Hraw : forall (m : list byte) wb,
             messageSet_writeTo m wb = wb ++ messageSet_writeTo m []) by done.
  assert (Hunit : forall (m : unit) wb, messageSet_writeTo m wb = wb ++ messageSet_writeTo m []).
  { intros m wb. cbn. by rewrite app_nil_r. }
  destruct (response_writeTo_appends Hraw) as (Hpartition & _ & _).
  destruct (response_writeTo_appends Hunit) as (_ & _ & Hres).
  split.
  - destruct (Hpartition exampleRawPartitionV2 [255; 254]) as (_ & _ & Hlayout & _).
    rewrite Hlayout. reflexivity.
  - apply Hres.
Defined.

(** ** More on Fetch and MultiFetch *)

Lemma errors_Is_refl e : errors_Is e e = true.
Proof. destruct e; cbn; by rewrite bool_decide_eq_true_2. Qed.

Lemma errors_Is_Errorf prefix e : errors_Is (Errorf prefix e) e = true.
Proof. cbn. rewrite errors_Is_refl. apply orb_true_r. Qed.

Lemma wrap_congruent bits a b :
  0 < bits -> (a - b) mod 2 ^ bits = 0 -> wrap bits a = wrap bits b.
Proof.
  intros Hbits Hmod. unfold wrap. f_equal.
  assert (Hpos : 0 < 2 ^ bits) by (apply Z.pow_pos_nonneg; lia).
  apply Z.mod_divide in Hmod; [|lia]. destruct Hmod as [k Hk].
  replace (a + 2 ^ (bits - 1)) with (b + 2 ^ (bits - 1) + k * 2 ^ bits) by lia.
  apply Z_mod_plus_full.
Qed.

Section MoreOperationFacts.
Context `{pkg : Package}.

(** X5: [Fetch] makes exactly one call of the transport, to the request's
    address and whatever the reply; its message has one topic, the
    request's, with one partition: the request's partition converted to
    [int32], the offset unchanged, the request-level [MaxBytes] as
    [PartitionMaxBytes], and -1 for replica, session, epoch and log start
    offset. *)
Theorem Fetch_sends_one_single_partition_message c ctx req tr :
  exists wire topic partition,
    calls (Fetch c ctx req) tr = tr ++ [(FetchRequest_Addr req, wire)] /\
    Request_Topics wire = [topic] /\
    RequestTopic_Topic topic = FetchRequest_Topic req /\
    RequestTopic_Partitions topic = [partition] /\
    RequestPartition_Partition partition = int32 (FetchRequest_Partition req) /\
    RequestPartition_FetchOffset partition = FetchRequest_Offset req /\
    RequestPartition_PartitionMaxBytes partition = Request_MaxBytes wire /\
    RequestPartition_CurrentLeaderEpoch partition = -1 /\
    RequestPartition_LogStartOffset partition = -1 /\
    Request_ReplicaID wire = -1 /\
    Request_SessionID wire = -1 /\
    Request_SessionEpoch wire = -1 /\
    Request_IsolationLevel wire = int8 (FetchRequest_IsolationLevel req).
Proof.
  eexists. eexists. eexists. split; [apply Fetch_calls|]. cbn. by repeat split.
Qed.

(** X6: [Fetch] panics exactly when the transport hands back, with no
    error, something other than a pointer to a fetch response: a nil
    [*fetchAPI.Response], another message, or none.  When it returns,
    either the response is non-nil and the error nil, or the response is
    nil and the error wraps [ErrNoTopic], [ErrNoPartition] or the
    transport's error: a broker error code is never the returned error. *)
Theorem Fetch_outcome_shape c ctx req tr :
  (result (Fetch c ctx req) tr = Panicked <->
   Client_reply c ctx (FetchRequest_Addr req) (Fetch_message c ctx req) tr
   = RoundTripMessage NilFetchResponseMessage \/
   Client_reply c ctx (FetchRequest_Addr req) (Fetch_message c ctx req) tr
   = RoundTripMessage OtherMessage) /\
  (forall ret err,
     result (Fetch c ctx req) tr = Returned ret err ->
     (is_Some ret /\ err = None) \/
     (ret = None /\
      (err = Some (Errorf "kafka.(*Client).Fetch" ErrNoTopic) \/
       err = Some (Errorf "kafka.(*Client).Fetch" ErrNoPartition) \/
       exists cause,
         Client_reply c ctx (FetchRequest_Addr req) (Fetch_message c ctx req) tr
         = RoundTripError cause /\
         err = Some (Errorf "kafka.(*Client).Fetch" cause)))).
Proof.
  rewrite Fetch_result.
  destruct (Client_reply _ _ _ _ _) as [cause|[res| |]].
  - split; [split; [done|by intros [?|?]]|].
    intros ret err [= <- <-]. right. split; [done|]. right. right. by exists cause.
  - unfold Fetch_response.
    destruct (elems (Response_Topics res)) as [|topic topics].
    { split; [split; [done|by intros [?|?]]|].
      intros ret err [= <- <-]. right. split; [done|]. by left. }
    destruct (ResponseTopic_Partitions topic) as [|partition partitions].
    { split; [split; [done|by intros [?|?]]|].
      intros ret err [= <- <-]. right. split; [done|]. right. by left. }
    split; [split; [done|by intros [?|?]]|]. intros ret err [= <- <-]. left. by split.
  - split; [split; [by left|done]|]. intros ret err Hret. discriminate Hret.
  - split; [split; [by right|done]|]. intros ret err Hret. discriminate Hret.
Qed.

(** X7: an error of the transport comes back from [Fetch] and [MultiFetch]
    with no response, wrapped under the operation's name, and [errors.Is]
    finds it. *)
Theorem transport_error_is_wrapped c ctx tr cause :
  (forall req,
     Client_reply c ctx (FetchRequest_Addr req) (Fetch_message c ctx req) tr
     = RoundTripError cause ->
     exists err,
       result (Fetch c ctx req) tr = Returned None (Some err) /\
       err = Errorf "kafka.(*Client).Fetch" cause /\
       errors_Is err cause = true) /\
  (forall req,
     MultiFetchRequest_Requests req <> ∅ ->
     Client_reply c ctx (MultiFetchRequest_Addr req) (MultiFetch_message c ctx req) tr
     = RoundTripError cause ->
     exists err,
       result (MultiFetch c ctx req) tr = Returned None (Some err) /\
       err = Errorf "kafka.(*Client).MultiFetch" cause /\
       errors_Is err cause = true).
Proof.
  split.
  - intros req Hreply. eexists. rewrite Fetch_result, Hreply.
    split; [done|]. split; [done|]. apply errors_Is_Errorf.
  - intros req Hne Hreply. eexists. rewrite MultiFetch_result, Hreply by done.
    split; [done|]. split; [done|]. apply errors_Is_Errorf.
Qed.

Lemma Fetch_response_fields res topic topics partition partitions :
  elems (Response_Topics res) = topic :: topics ->
  ResponseTopic_Partitions topic = partition :: partitions ->
  exists ret,
    Fetch_response res = Returned (Some ret) None /\
    FetchResponse_Throttle ret = makeDuration (Response_ThrottleTimeMs res) /\
    FetchResponse_Topic ret = ResponseTopic_Topic topic /\
    FetchResponse_Partition ret = ResponsePartition_Partition partition /\
    FetchResponse_HighWatermark ret = ResponsePartition_HighWatermark partition /\
    FetchResponse_LastStableOffset ret = ResponsePartition_LastStableOffset partition /\
    FetchResponse_LogStartOffset ret = ResponsePartition_LogStartOffset partition.
Proof.
  intros Htopics Hpartitions. unfold Fetch_response.
  rewrite Htopics, Hpartitions. eexists. split; [reflexivity|].
  destruct (ResponsePartition_ErrorCode partition =? 0);
    destruct (RecordSet_Records (ResponsePartition_RecordSet partition)); cbn; done.
Qed.

(** X8: [Fetch] returns a response exactly when the reply is a fetch
    response with a first topic that has a first partition, whatever the
    error codes in it. *)
Theorem Fetch_succeeds_iff_first_partition c ctx req tr :
  (exists ret, result (Fetch c ctx req) tr = Returned (Some ret) None) <->
  (exists res topic topics partition partitions,
     Client_reply c ctx (FetchRequest_Addr req) (Fetch_message c ctx req) tr
     = RoundTripMessage (FetchResponseMessage res) /\
     elems (Response_Topics res) = topic :: topics /\
     ResponseTopic_Partitions topic = partition :: partitions).
Proof.
  split.
  - intros [ret Hret].
    destruct (Fetch_success_inv _ _ _ _ _ Hret)
      as (res & topic & topics & partition & partitions & Hreply & Htopics & Hparts & _).
    by exists res, topic, topics, partition, partitions.
  - intros (res & topic & topics & partition & partitions & Hreply & Htopics & Hparts).
    destruct (Fetch_response_fields res topic topics partition partitions Htopics Hparts)
      as (ret & Hret & _).
    exists ret. by rewrite Fetch_result, Hreply.
Qed.

(** X9: the response of [Fetch] takes its topic, partition, high
    watermark, last stable offset and log start offset from the first
    partition of the first topic of the reply, and its throttle from the
    reply's throttle time. *)
Theorem Fetch_response_echoes_first_partition c ctx req tr res topic topics partition partitions :
  Client_reply c ctx (FetchRequest_Addr req) (Fetch_message c ctx req) tr
    = RoundTripMessage (FetchResponseMessage res) ->
  elems (Response_Topics res) = topic :: topics ->
  ResponseTopic_Partitions topic = partition :: partitions ->
  exists ret,
    result (Fetch c ctx req) tr = Returned (Some ret) None /\
    FetchResponse_Throttle ret = makeDuration (Response_ThrottleTimeMs res) /\
    FetchResponse_Topic ret = ResponseTopic_Topic topic /\
    FetchResponse_Partition ret = ResponsePartition_Partition partition /\
    FetchResponse_HighWatermark ret = ResponsePartition_HighWatermark partition /\
    FetchResponse_LastStableOffset ret = ResponsePartition_LastStableOffset partition /\
    FetchResponse_LogStartOffset ret = ResponsePartition_LogStartOffset partition.
Proof.
  intros Hreply Htopics Hparts. rewrite Fetch_result, Hreply.
  by apply (Fetch_response_fields res topic topics partition partitions).
Qed.

Lemma Fetch_response_first res res' topic topics topic' topics' partition partitions partitions' :
  Response_ThrottleTimeMs res = Response_ThrottleTimeMs res' ->
  Response_ErrorCode res = Response_ErrorCode res' ->
  elems (Response_Topics res) = topic :: topics ->
  elems (Response_Topics res') = topic' :: topics' ->
  ResponseTopic_Topic topic = ResponseTopic_Topic topic' ->
  ResponseTopic_Partitions topic = partition :: partitions ->
  ResponseTopic_Partitions topic' = partition :: partitions' ->
  Fetch_response res = Fetch_response res'.
Proof.
  intros Hthrottle Hcode Htopics Htopics' Hname Hparts Hparts'. unfold Fetch_response.
  by rewrite Htopics, Htopics', Hparts, Hparts', Hthrottle, Hcode, Hname.
Qed.

(** X10: [Fetch] reads nothing of the reply past the first partition of
    the first topic: two replies with the same throttle time, error code,
    first topic name and first partition give the same outcome. *)
Theorem Fetch_reads_only_first_partition c ctx req tr c' ctx' req' tr'
    res res' topic topics topic' topics' partition partitions partitions' :
  Client_reply c ctx (FetchRequest_Addr req) (Fetch_message c ctx req) tr
    = RoundTripMessage (FetchResponseMessage res) ->
  Client_reply c' ctx' (FetchRequest_Addr req') (Fetch_message c' ctx' req') tr'
    = RoundTripMessage (FetchResponseMessage res') ->
  Response_ThrottleTimeMs res = Response_ThrottleTimeMs res' ->
  Response_ErrorCode res = Response_ErrorCode res' ->
  elems (Response_Topics res) = topic :: topics ->
  elems (Response_Topics res') = topic' :: topics' ->
  ResponseTopic_Topic topic = ResponseTopic_Topic topic' ->
  ResponseTopic_Partitions topic = partition :: partitions ->
  ResponseTopic_Partitions topic' = partition :: partitions' ->
  result (Fetch c ctx req) tr = result (Fetch c' ctx' req') tr'.
Proof.
  intros Hreply Hreply' ? ? ? ? ? ? ?. rewrite !Fetch_result, Hreply, Hreply'.
  by eapply Fetch_response_first.
Qed.

(** X11: once its request has a topic, [MultiFetch] returns a response for
    every fetch reply, one with no topic included: throttle and error come
    from the reply's header, [Responses] is nil exactly when the reply's
    topic list is nil, and empty when that list is empty. *)
Theorem MultiFetch_accepts_any_fetch_reply c ctx req tr res :
  MultiFetchRequest_Requests req <> ∅ ->
  Client_reply c ctx (MultiFetchRequest_Addr req) (MultiFetch_message c ctx req) tr
    = RoundTripMessage (FetchResponseMessage res) ->
  exists ret,
    result (MultiFetch c ctx req) tr = Returned (Some ret) None /\
    MultiFetchResponse_Throttle ret = makeDuration (Response_ThrottleTimeMs res) /\
    MultiFetchResponse_Error ret = makeError (Response_ErrorCode res) "" /\
    (Response_Topics res = None <-> MultiFetchResponse_Responses ret = None) /\
    (Response_Topics res = Some [] -> MultiFetchResponse_Responses ret = Some ∅).
Proof.
  intros Hne Hreply. exists (MultiFetch_response res).
  rewrite MultiFetch_result, Hreply by done.
  split; [done|]. split; [done|]. split; [done|].
  unfold MultiFetch_response. cbn. split.
  - by destruct (Response_Topics res).
  - by intros ->.
Qed.

(** X12: [MultiFetch] panics exactly when its request has a topic and the
    transport hands back, with no error, something other than a pointer to
    a fetch response: a nil [*fetchAPI.Response], another message, or
    none.  When it returns, either the response is non-nil and the error
    nil, or the response is nil and the error wraps [ErrNoTopic] (empty
    request) or the transport's error. *)
Theorem MultiFetch_outcome_shape c ctx req tr :
  (result (MultiFetch c ctx req) tr = Panicked <->
   MultiFetchRequest_Requests req <> ∅ /\
   (Client_reply c ctx (MultiFetchRequest_Addr req) (MultiFetch_message c ctx req) tr
    = RoundTripMessage NilFetchResponseMessage \/
    Client_reply c ctx (MultiFetchRequest_Addr req) (MultiFetch_message c ctx req) tr
    = RoundTripMessage OtherMessage)) /\
  (forall ret err,
     result (MultiFetch c ctx req) tr = Returned ret err ->
     (is_Some ret /\ err = None) \/
     (ret = None /\
      ((MultiFetchRequest_Requests req = ∅ /\
        err = Some (Errorf "kafka.(*Client).MultiFetch" ErrNoTopic)) \/
       exists cause,
         Client_reply c ctx (MultiFetchRequest_Addr req) (MultiFetch_message c ctx req) tr
         = RoundTripError cause /\
         err = Some (Errorf "kafka.(*Client).MultiFetch" cause)))).
Proof.
  destruct (decide (MultiFetchRequest_Requests req = ∅)) as [Hempty|Hne].
  - unfold result. rewrite MultiFetch_empty by done. cbn. split.
    + split; [done|]. by intros [? _].
    + intros ret err [= <- <-]. right. split; [done|]. by left.
  - rewrite MultiFetch_result by done.
    destruct (Client_reply _ _ _ _ _) as [cause|[res| |]].
    + split; [split; [done|by intros [_ [?|?]]]|].
      intros ret err [= <- <-]. right. split; [done|]. right. by exists cause.
    + split; [split; [done|by intros [_ [?|?]]]|].
      intros ret err [= <- <-]. left. by split.
    + split; [split; [intros _; split; [done|by left]|done]|].
      intros ret err Hret. discriminate Hret.
    + split; [split; [intros _; split; [done|by right]|done]|].
      intros ret err Hret. discriminate Hret.
Qed.

(** X13: every entry list of [Responses] comes from a decoded topic of
    that name, has as many entries as the topic has partitions, and its
    i-th entry carries the i-th partition's number, offsets and error: the
    mapped partition code, nil for code 0 whatever the reply's global
    error code. *)
Theorem MultiFetch_entries_follow_partitions c ctx req tr res topics ret responses name entries :
  Client_reply c ctx (MultiFetchRequest_Addr req) (MultiFetch_message c ctx req) tr
    = RoundTripMessage (FetchResponseMessage res) ->
  Response_Topics res = Some topics ->
  result (MultiFetch c ctx req) tr = Returned (Some ret) None ->
  MultiFetchResponse_Responses ret = Some responses ->
  responses !! name = Some entries ->
  exists topic,
    topic ∈ topics /\
    ResponseTopic_Topic topic = name /\
    length entries = length (ResponseTopic_Partitions topic) /\
    forall i p,
      ResponseTopic_Partitions topic !! i = Some p ->
      exists entry,
        entries !! i = Some entry /\
        FetchPartitionResponse_Partition entry = ResponsePartition_Partition p /\
        FetchPartitionResponse_HighWatermark entry = ResponsePartition_HighWatermark p /\
        FetchPartitionResponse_LastStableOffset entry = ResponsePartition_LastStableOffset p /\
        FetchPartitionResponse_LogStartOffset entry = ResponsePartition_LogStartOffset p /\
        FetchPartitionResponse_Error entry = makeError (ResponsePartition_ErrorCode p) "" /\
        (ResponsePartition_ErrorCode p = 0 -> FetchPartitionResponse_Error entry = None).
Proof.
  intros Hreply Htopics Hok Hresponses Hlookup.
  destruct (decide (MultiFetchRequest_Requests req = ∅)) as [Hempty|Hne].
  { unfold result in Hok. by rewrite MultiFetch_empty in Hok. }
  rewrite MultiFetch_result, Hreply in Hok by done. injection Hok as <-.
  unfold MultiFetch_response in Hresponses. cbn in Hresponses.
  rewrite Htopics in Hresponses. injection Hresponses as <-.
  rewrite MultiFetch_responses_lookup in Hlookup.
  apply fmap_Some in Hlookup as (topic & Hlast & ->).
  apply last_filter_elem_of in Hlast as [Hin Hname].
  exists topic. split; [done|]. split; [done|]. split; [by rewrite length_map|].
  intros i p Hp. exists (MultiFetch_partitionResponse p).
  split; [by rewrite list_lookup_fmap, Hp|].
  unfold MultiFetch_partitionResponse. cbn. repeat split.
  by intros ->.
Qed.

Lemma size_list_to_set_bound (names : list string) :
  (size (list_to_set names : gset string) <= length names)%nat.
Proof.
  induction names as [|name names IH]; cbn [list_to_set length].
  - by rewrite size_empty.
  - rewrite size_union_alt, size_singleton.
    assert (Hle : (size (list_to_set names ∖ {[name]} : gset string)
                   <= size (list_to_set names : gset string))%nat).
    { by apply subseteq_size, subseteq_difference_l. }
    lia.
Qed.

Lemma MultiFetch_responses_dom topics :
  dom (MultiFetch_responses topics)
  = (list_to_set (map ResponseTopic_Topic topics) : gset string).
Proof.
  apply set_eq. intros name.
  rewrite elem_of_dom, elem_of_list_to_set, MultiFetch_responses_lookup, fmap_is_Some.
  rewrite list_elem_of_fmap. split.
  - intros [t Ht]. apply last_filter_elem_of in Ht as [Hin Hname]. by exists t.
  - intros (t & -> & Hin). by eapply last_filter_is_Some.
Qed.

(** X14: the keys of [Responses] are exactly the topic names of the
    reply, requested or not; there are at most as many as decoded topics,
    and as many when no name occurs twice. *)
Theorem MultiFetch_responses_keys c ctx req tr res topics :
  MultiFetchRequest_Requests req <> ∅ ->
  Client_reply c ctx (MultiFetchRequest_Addr req) (MultiFetch_message c ctx req) tr
    = RoundTripMessage (FetchResponseMessage res) ->
  Response_Topics res = Some topics ->
  exists ret responses,
    result (MultiFetch c ctx req) tr = Returned (Some ret) None /\
    MultiFetchResponse_Responses ret = Some responses /\
    dom responses = (list_to_set (map ResponseTopic_Topic topics) : gset string) /\
    (size responses <= length topics)%nat /\
    (NoDup (map ResponseTopic_Topic topics) -> size responses = length topics).
Proof.
  intros Hne Hreply Htopics.
  exists (MultiFetch_response res), (MultiFetch_responses topics).
  rewrite MultiFetch_result, Hreply by done.
  split; [done|]. split; [by unfold MultiFetch_response; rewrite Htopics|].
  split; [apply MultiFetch_responses_dom|].
  rewrite <- size_dom, MultiFetch_responses_dom. split.
  - etrans; [apply size_list_to_set_bound|]. by rewrite length_map.
  - intros Hnodup. rewrite size_list_to_set by done. by rewrite length_map.
Qed.

Lemma MultiFetch_topics_names req :
  map RequestTopic_Topic (MultiFetch_topics req)
  = map fst (rangeRequests (MultiFetchRequest_Requests req)).
Proof. unfold MultiFetch_topics. rewrite map_map. by apply map_ext. Qed.

(** X15: the message of [MultiFetch] has one topic per entry of
    [Requests], in some order and with distinct names; each topic has one
    partition per spec, in the specs' order, with the spec's offset
    unchanged, its partition converted to [int32], and -1 for leader epoch
    and log start offset; replica is -1, session id and epoch are 0. *)
Theorem MultiFetch_message_topics c ctx req tr :
  MultiFetchRequest_Requests req <> ∅ ->
  exists wire,
    calls (MultiFetch c ctx req) tr = tr ++ [(MultiFetchRequest_Addr req, wire)] /\
    Request_Topics wire
    ≡ₚ map (fun entry : string * list FetchPartitionRequest =>
              {| RequestTopic_Topic := entry.1;
                 RequestTopic_Partitions := map (MultiFetch_partition req) entry.2 |})
           (map_to_list (MultiFetchRequest_Requests req)) /\
    length (Request_Topics wire) = size (MultiFetchRequest_Requests req) /\
    NoDup (map RequestTopic_Topic (Request_Topics wire)) /\
    (forall topic,
       topic ∈ Request_Topics wire ->
       exists specs,
         MultiFetchRequest_Requests req !! RequestTopic_Topic topic = Some specs /\
         length (RequestTopic_Partitions topic) = length specs /\
         forall i spec,
           specs !! i = Some spec ->
           exists partition,
             RequestTopic_Partitions topic !! i = Some partition /\
             RequestPartition_Partition partition
             = int32 (FetchPartitionRequest_Partition spec) /\
             RequestPartition_FetchOffset partition = FetchPartitionRequest_Offset spec /\
             RequestPartition_CurrentLeaderEpoch partition = -1 /\
             RequestPartition_LogStartOffset partition = -1) /\
    Request_ReplicaID wire = -1 /\
    Request_SessionID wire = 0 /\
    Request_SessionEpoch wire = 0.
Proof.
  intros Hne. exists (MultiFetch_message c ctx req).
  split; [by apply MultiFetch_calls|]. cbn.
  pose proof (rangeRequests_perm (MultiFetchRequest_Requests req)) as Hperm.
  split; [unfold MultiFetch_topics; by apply Permutation_map|].
  split.
  { unfold MultiFetch_topics. rewrite length_map, Hperm. apply length_map_to_list. }
  split.
  { rewrite MultiFetch_topics_names, Hperm. apply NoDup_fst_map_to_list. }
  split; [|done].
  intros topic Hin. unfold MultiFetch_topics in Hin.
  apply list_elem_of_fmap in Hin as ([name specs] & -> & Hentry).
  rewrite Hperm in Hentry. apply elem_of_map_to_list in Hentry.
  exists specs. cbn. split; [done|]. split; [by rewrite length_map|].
  intros i spec Hspec. exists (MultiFetch_partition req spec).
  split; [by rewrite list_lookup_fmap, Hspec|]. done.
Qed.

Lemma rangeRequests_singleton name (specs : list FetchPartitionRequest) :
  rangeRequests {[name := specs]} = [(name, specs)].
Proof.
  pose proof (rangeRequests_perm {[name := specs]}) as Hperm.
  rewrite map_to_list_singleton in Hperm. by apply Permutation_singleton_r in Hperm.
Qed.

(** X16: a [MultiFetch] for one partition of one topic, with the limits of
    a [FetchRequest], sends the message [Fetch] sends for that request,
    except that session id and epoch are 0 where [Fetch] sends -1. *)
Theorem MultiFetch_single_spec_message c ctx req mreq spec :
  MultiFetchRequest_Requests mreq = {[FetchRequest_Topic req := [spec]]} ->
  FetchPartitionRequest_Partition spec = FetchRequest_Partition req ->
  FetchPartitionRequest_Offset spec = FetchRequest_Offset req ->
  FetchPartitionRequest_MaxBytes spec = FetchRequest_MaxBytes req \/
    FetchPartitionRequest_MaxBytes spec = 0 ->
  MultiFetchRequest_MinBytes mreq = FetchRequest_MinBytes req ->
  MultiFetchRequest_MaxBytes mreq = FetchRequest_MaxBytes req ->
  MultiFetchRequest_MaxWait mreq = FetchRequest_MaxWait req ->
  MultiFetchRequest_IsolationLevel mreq = FetchRequest_IsolationLevel req ->
  Request_Topics (MultiFetch_message c ctx mreq) = Request_Topics (Fetch_message c ctx req) /\
  Request_ReplicaID (MultiFetch_message c ctx mreq) = Request_ReplicaID (Fetch_message c ctx req) /\
  Request_MaxWaitTime (MultiFetch_message c ctx mreq)
  = Request_MaxWaitTime (Fetch_message c ctx req) /\
  Request_MinBytes (MultiFetch_message c ctx mreq) = Request_MinBytes (Fetch_message c ctx req) /\
  Request_MaxBytes (MultiFetch_message c ctx mreq) = Request_MaxBytes (Fetch_message c ctx req) /\
  Request_IsolationLevel (MultiFetch_message c ctx mreq)
  = Request_IsolationLevel (Fetch_message c ctx req) /\
  Request_SessionID (MultiFetch_message c ctx mreq) = 0 /\
  Request_SessionEpoch (MultiFetch_message c ctx mreq) = 0 /\
  Request_SessionID (Fetch_message c ctx req) = -1 /\
  Request_SessionEpoch (Fetch_message c ctx req) = -1.
Proof.
  intros Hrequests Hpartition Hoffset Hbytes Hmin Hmax Hwait Hlevel. cbn.
  unfold MultiFetch_topics, MultiFetchRequest_maxWait, FetchRequest_maxWait.
  rewrite Hrequests, rangeRequests_singleton, Hmin, Hmax, Hwait, Hlevel. cbn.
  unfold MultiFetch_partition. rewrite Hpartition, Hoffset, Hmax.
  repeat split.
  destruct Hbytes as [->| ->]; [|done].
  by destruct (FetchRequest_MaxBytes req =? 0).
Qed.

(** X17: requests that differ only by multiples of 2^32 in [Partition],
    [MinBytes], [MaxBytes], and of 2^8 in [IsolationLevel], send the same
    message; requests that send the same message have the same topic and
    offset. *)
Theorem Fetch_message_narrowing c ctx req req' :
  (FetchRequest_Topic req = FetchRequest_Topic req' ->
   FetchRequest_Offset req = FetchRequest_Offset req' ->
   FetchRequest_MaxWait req = FetchRequest_MaxWait req' ->
   (FetchRequest_Partition req - FetchRequest_Partition req') mod 2 ^ 32 = 0 ->
   (FetchRequest_MinBytes req - FetchRequest_MinBytes req') mod 2 ^ 32 = 0 ->
   (FetchRequest_MaxBytes req - FetchRequest_MaxBytes req') mod 2 ^ 32 = 0 ->
   (FetchRequest_IsolationLevel req - FetchRequest_IsolationLevel req') mod 2 ^ 8 = 0 ->
   Fetch_message c ctx req = Fetch_message c ctx req') /\
  (Fetch_message c ctx req = Fetch_message c ctx req' ->
   FetchRequest_Topic req = FetchRequest_Topic req' /\
   FetchRequest_Offset req = FetchRequest_Offset req').
Proof.
  split.
  - intros Htopic Hoffset Hwait Hpartition Hmin Hmax Hlevel.
    unfold Fetch_message, FetchRequest_maxWait, int32, int8.
    rewrite Htopic, Hoffset, Hwait.
    rewrite (wrap_congruent 32 _ _ ltac:(lia) Hpartition).
    rewrite (wrap_congruent 32 _ _ ltac:(lia) Hmin).
    rewrite (wrap_congruent 32 _ _ ltac:(lia) Hmax).
    by rewrite (wrap_congruent 8 _ _ ltac:(lia) Hlevel).
  - intros Heq. apply (f_equal Request_Topics) in Heq. cbn in Heq.
    by injection Heq as -> _ ->.
Qed.

End MoreOperationFacts.

(** ** More on the mock package *)

(** A reply that is no fetch response, a nil one, and a transport error. *)
Lemma Fetch_outcome_shape_witness :
  result (mockFetch (fun _ => RoundTripMessage OtherMessage) exampleFetchRequest) [] = Panicked /\
  result (mockFetch (fun _ => RoundTripMessage NilFetchResponseMessage) exampleFetchRequest) []
  = Panicked /\
  exists cause,
    result (mockFetch (fun _ => RoundTripError (TransportError "timeout")) exampleFetchRequest) []
    = Returned None (Some (Errorf "kafka.(*Client).Fetch" cause)).
Proof.
  split; [|split].
  - apply (proj1 (Fetch_outcome_shape (pkg:=mockPackage)
                    (fun _ => RoundTripMessage OtherMessage) tt exampleFetchRequest [])).
    right. reflexivity.
  - apply (proj1 (Fetch_outcome_shape (pkg:=mockPackage)
                    (fun _ => RoundTripMessage NilFetchResponseMessage) tt
                    exampleFetchRequest [])).
    left. reflexivity.
  - destruct (proj2 (Fetch_outcome_shape (pkg:=mockPackage)
                       (fun _ => RoundTripError (TransportError "timeout")) tt
                       exampleFetchRequest [])
                _ _ eq_refl) as [[_ Hnone]|[_ [Htopic|[Hpartition|(cause & _ & Hcause)]]]];
      try discriminate.
    exists cause. unfold mockFetch. by injection Hcause as <-.
Defined.

(** A timeout of the transport. *)
Lemma transport_error_is_wrapped_witness :
  errors_Is (Errorf "kafka.(*Client).Fetch" (TransportError "timeout")) (TransportError "timeout")
  = true /\
  result (mockMultiFetch (fun _ => RoundTripError (TransportError "timeout")) request_two_topics) []
  = Returned None (Some (Errorf "kafka.(*Client).MultiFetch" (TransportError "timeout"))).
Proof.
  destruct (transport_error_is_wrapped (pkg:=mockPackage)
              (fun _ => RoundTripError (TransportError "timeout")) tt []
              (TransportError "timeout")) as [Hfetch Hmulti].
  destruct (Hfetch exampleFetchRequest eq_refl) as (err & _ & -> & His).
  destruct (Hmulti request_two_topics request_two_topics_nonempty eq_refl)
    as (err' & Hresult & -> & _).
  split; [exact His|exact Hresult].
Defined.

(** A reply with both error codes set still gives a response. *)
Lemma Fetch_succeeds_iff_first_partition_witness :
  exists ret,
    result (mockFetch (replyBroker reply_both_errors) exampleFetchRequest) []
    = Returned (Some ret) None.
Proof.
  apply (proj2 (Fetch_succeeds_iff_first_partition (pkg:=mockPackage)
                  (replyBroker reply_both_errors) tt exampleFetchRequest [])).
  exists reply_both_errors. do 4 eexists. split; [reflexivity|]. split; reflexivity.
Defined.

(** A reply about topic other, partition 7. *)
Lemma Fetch_response_echoes_first_partition_witness :
  exists ret,
    result (mockFetch (replyBroker reply_other_topic) exampleFetchRequest) []
    = Returned (Some ret) None /\
    FetchResponse_Topic ret = "other" /\
    FetchResponse_Partition ret = 7 /\
    FetchResponse_HighWatermark ret = 100.
Proof.
  destruct (Fetch_response_echoes_first_partition (pkg:=mockPackage)
              (replyBroker reply_other_topic) tt exampleFetchRequest [] reply_other_topic
              _ _ _ _ eq_refl eq_refl eq_refl)
    as (ret & Hret & _ & Htopic & Hpartition & Hhigh & _).
  exists ret. by repeat split.
Defined.

(** A second topic or a second partition changes nothing. *)
Lemma Fetch_reads_only_first_partition_witness :
  result (mockFetch (replyBroker reply_two_topics) exampleFetchRequest) []
  = result (mockFetch
              (replyBroker
                 (exampleReply 0
                    [ {| ResponseTopic_Topic := "a";
                         ResponseTopic_Partitions :=
                           [ examplePartition 0 0 None; examplePartition 9 5 None ] |} ]))
              exampleFetchRequest) [].
Proof.
  eapply (Fetch_reads_only_first_partition (pkg:=mockPackage)); reflexivity.
Defined.

(** The reply with no topic that [Fetch] rejects. *)
Lemma MultiFetch_accepts_any_fetch_reply_witness :
  exists ret,
    result (mockMultiFetch (replyBroker reply_no_topic) request_two_topics) []
    = Returned (Some ret) None /\
    MultiFetchResponse_Responses ret = Some ∅ /\
    result (mockFetch (replyBroker reply_no_topic) exampleFetchRequest) []
    = Returned None (Some (Errorf "kafka.(*Client).Fetch" ErrNoTopic)).
Proof.
  destruct (MultiFetch_accepts_any_fetch_reply (pkg:=mockPackage)
              (replyBroker reply_no_topic) tt request_two_topics [] reply_no_topic
              request_two_topics_nonempty eq_refl)
    as (ret & Hret & _ & _ & _ & Hempty).
  exists ret. split; [exact Hret|]. split; [by apply Hempty|reflexivity].
Defined.

(** A reply that is no fetch response or a nil one, to a request with
    topics, and to one without. *)
Lemma MultiFetch_outcome_shape_witness :
  result (mockMultiFetch (fun _ => RoundTripMessage OtherMessage) request_two_topics) []
  = Panicked /\
  result (mockMultiFetch (fun _ => RoundTripMessage NilFetchResponseMessage) request_two_topics) []
  = Panicked /\
  result (mockMultiFetch (fun _ => RoundTripMessage OtherMessage) request_no_topic) []
  = Returned None (Some (Errorf "kafka.(*Client).MultiFetch" ErrNoTopic)).
Proof.
  split; [|split].
  - apply (proj1 (MultiFetch_outcome_shape (pkg:=mockPackage)
                    (fun _ => RoundTripMessage OtherMessage) tt request_two_topics [])).
    split; [apply request_two_topics_nonempty|right; reflexivity].
  - apply (proj1 (MultiFetch_outcome_shape (pkg:=mockPackage)
                    (fun _ => RoundTripMessage NilFetchResponseMessage) tt
                    request_two_topics [])).
    split; [apply request_two_topics_nonempty|left; reflexivity].
  - destruct (proj2 (MultiFetch_outcome_shape (pkg:=mockPackage)
                       (fun _ => RoundTripMessage OtherMessage) tt request_no_topic [])
                _ _ eq_refl) as [[_ Hnone]|[_ [[_ Herr]|(cause & Hreply & _)]]];
      try discriminate.
    reflexivity.
Defined.

(** The entry of topic b, partition 1, error code 3. *)
Lemma MultiFetch_entries_follow_partitions_witness :
  exists topic entry,
    topic ∈ elems (Response_Topics reply_two_topics) /\
    ResponseTopic_Topic topic = "b" /\
    FetchPartitionResponse_Partition entry = 1 /\
    FetchPartitionResponse_Error entry = Some (KafkaError 3 "").
Proof.
  destruct (MultiFetch_entries_follow_partitions (pkg:=mockPackage)
              (replyBroker reply_two_topics) tt request_two_topics [] reply_two_topics
              _ _ _ "b" [MultiFetch_partitionResponse (examplePartition 1 3 None)]
              eq_refl eq_refl eq_refl eq_refl)
    as (topic & Hin & Hname & Hlen & Hentries).
  { vm_compute. reflexivity. }
  exists topic, (MultiFetch_partitionResponse (examplePartition 1 3 None)).
  split; [exact Hin|]. split; [exact Hname|]. split; reflexivity.
Defined.

(** Two decoded entries for topic a leave one key. *)
Lemma MultiFetch_responses_keys_witness :
  exists ret responses,
    result (mockMultiFetch (replyBroker reply_duplicate_topic) request_two_topics) []
    = Returned (Some ret) None /\
    MultiFetchResponse_Responses ret = Some responses /\
    dom responses = ({["a"]} : gset string) /\
    (size responses <= 2)%nat.
Proof.
  destruct (MultiFetch_responses_keys (pkg:=mockPackage)
              (replyBroker reply_duplicate_topic) tt request_two_topics []
              reply_duplicate_topic _ request_two_topics_nonempty eq_refl eq_refl)
    as (ret & responses & Hret & Hresponses & Hdom & Hsize & _).
  exists ret, responses. split; [exact Hret|]. split; [exact Hresponses|].
  split; [|exact Hsize]. rewrite Hdom. cbn. set_solver.
Defined.

(** A request for two topics. *)
Lemma MultiFetch_message_topics_witness :
  exists wire,
    calls (mockMultiFetch (replyBroker reply_two_topics) request_two_topics) []
    = [("broker:9092", wire)] /\
    length (Request_Topics wire) = 2%nat /\
    Request_SessionID wire = 0.
Proof.
  destruct (MultiFetch_message_topics (pkg:=mockPackage)
              (replyBroker reply_two_topics) tt request_two_topics []
              request_two_topics_nonempty)
    as (wire & Hcalls & _ & Hlen & _ & _ & _ & Hsession & _).
  exists wire. split; [exact Hcalls|]. split; [|exact Hsession].
  rewrite Hlen. vm_compute. reflexivity.
Defined.

(** The one-partition request that matches [exampleFetchRequest]. *)
Lemma MultiFetch_single_spec_message_witness :
  Request_Topics
    (MultiFetch_message (pkg:=mockPackage) (replyBroker reply_no_topic) tt
       {| MultiFetchRequest_Addr := "broker:9092";
          MultiFetchRequest_Requests := {["events" := [exampleSpec 0 42 0]]};
          MultiFetchRequest_MinBytes := 1;
          MultiFetchRequest_MaxBytes := 1048576;
          MultiFetchRequest_MaxWait := 250000000;
          MultiFetchRequest_IsolationLevel := 0 |})
  = Request_Topics
      (Fetch_message (pkg:=mockPackage) (replyBroker reply_no_topic) tt exampleFetchRequest).
Proof.
  apply (MultiFetch_single_spec_message (pkg:=mockPackage) (replyBroker reply_no_topic) tt
           exampleFetchRequest
           {| MultiFetchRequest_Addr := "broker:9092";
              MultiFetchRequest_Requests := {["events" := [exampleSpec 0 42 0]]};
              MultiFetchRequest_MinBytes := 1;
              MultiFetchRequest_MaxBytes := 1048576;
              MultiFetchRequest_MaxWait := 250000000;
              MultiFetchRequest_IsolationLevel := 0 |}
           (exampleSpec 0 42 0) eq_refl eq_refl eq_refl
           (or_intror eq_refl) eq_refl eq_refl eq_refl eq_refl).
Defined.

(** Partition 2^32 is sent as partition 0. *)
Lemma Fetch_message_narrowing_witness :
  Fetch_message (pkg:=mockPackage) (replyBroker reply_no_topic) tt
    {| FetchRequest_Addr := "broker:9092";
       FetchRequest_Topic := "events";
       FetchRequest_Partition := 4294967296;
       FetchRequest_Offset := 42;
       FetchRequest_MinBytes := 1;
       FetchRequest_MaxBytes := 1048576;
       FetchRequest_MaxWait := 250000000;
       FetchRequest_IsolationLevel := 0 |}
  = Fetch_message (pkg:=mockPackage) (replyBroker reply_no_topic) tt exampleFetchRequest.
Proof.
  apply (proj1 (Fetch_message_narrowing (pkg:=mockPackage) (replyBroker reply_no_topic) tt _
                  exampleFetchRequest)); reflexivity.
Defined.
